(** * chronos_forecast.py: orchestration of a probabilistic price forecaster

    A shallow embedding of [src/python/chronos_forecast.py] and the
    properties of its model cache, percentile summary, event aggregation
    and post-event analysis.

    Conventions of the embedding.
    - Python numbers (int, float, numpy floats) are rationals [Q], compared
      with [==].  A rational beyond the largest float64 stands for a Python
      integer, the only number of that size.  Overflow is modelled where
      the program meets it on finite inputs: the [OverflowError] of the
      conversion or the division of such an integer, and the infinities and
      the [nan] the float32 median and percentiles of numpy produce.  The
      rounding of a result that is in range is not modelled, and neither
      are non-finite inputs.
    - A JSON scalar stored in an event record is an [atom]; an event record
      is a Python dict from string keys to atoms, kept as an association
      list in insertion order.  JSON booleans and nested values inside an
      event record are outside the model.
    - Module globals, the diagnostic stream, standard output and the calls
      made to the forecasting engine are fields of [World]; every function
      that touches them is a state-and-exception computation [M].
    - The forecasting engine (torch, chronos) is a parameter [Engine]. *)

From Stdlib Require Import ZArith QArith Qabs Qminmax Qround.
From Stdlib Require Import List String Bool Lia Lqa.
From Stdlib Require Import Sorting Orders Mergesort Permutation.
Import ListNotations.

Local Open Scope string_scope.
Local Open Scope Q_scope.

(** ** Python values *)

(** Scalars: [None], a number, a [str].  They are the hashable values, so
    they are also the keys of a dict. *)
Inductive atom : Type :=
| ANone
| ANum (q : Q)
| AStr (s : string).

#[warnings="-register-all"]
Inductive pyval : Type :=
| Atom (a : atom)
| PyNaN
| PyInf (negative : bool)
| PyList (l : list pyval)
| PyDict (d : list (atom * pyval)).

Definition PyNone : pyval := Atom ANone.
Definition PyNum (q : Q) : pyval := Atom (ANum q).
Definition PyStr (s : string) : pyval := Atom (AStr s).
Definition PyInt (z : Z) : pyval := PyNum (inject_Z z).

(** [bool(a)]: truthiness of a scalar. *)
Definition truthy (a : atom) : bool :=
  match a with
  | ANone => false
  | ANum q => negb (Qeq_bool q 0)
  | AStr s => negb (String.eqb s EmptyString)
  end.

(** [a == b] on scalars, the equality a dict compares keys with. *)
Definition atom_eqb (a b : atom) : bool :=
  match a, b with
  | ANone, ANone => true
  | ANum p, ANum q => Qeq_bool p q
  | AStr s, AStr t => String.eqb s t
  | _, _ => false
  end.

(** ** Dicts, as association lists in insertion order *)

Section Dict.
Context {K V : Type} (eqb : K -> K -> bool).

(** [d.get(k)], [None] when the key is absent. *)
Fixpoint lookup (d : list (K * V)) (k : K) : option V :=
  match d with
  | [] => None
  | (k', v) :: d' => if eqb k' k then Some v else lookup d' k
  end.

(** [d.get(k, default)]. *)
Definition get_default (d : list (K * V)) (k : K) (default : V) : V :=
  match lookup d k with
  | Some v => v
  | None => default
  end.

(** [d[k] = v]: overwrites in place, or appends a new key. *)
Fixpoint store (d : list (K * V)) (k : K) (v : V) : list (K * V) :=
  match d with
  | [] => [(k, v)]
  | (k', v') :: d' =>
      if eqb k' k then (k', v) :: d' else (k', v') :: store d' k v
  end.
End Dict.

(** An event record, as [json.load] builds it. *)
Definition EventRecord : Type := list (string * atom).

(** [e.get(key)]: Python's [None] when the key is absent. *)
Definition event_get (e : EventRecord) (key : string) : atom :=
  get_default String.eqb e key ANone.

(** [e.get(key, default)]. *)
Definition event_get_or (e : EventRecord) (key : string) (default : atom) : atom :=
  get_default String.eqb e key default.

(** A result record: a dict with string keys. *)
Definition record : Type := list (atom * pyval).

Definition field (r : record) (key : string) : option pyval :=
  lookup atom_eqb r (AStr key).

(** [{**r, key: v}]. *)
Definition with_field (r : record) (key : string) (v : pyval) : record :=
  store atom_eqb r (AStr key) v.

(** ** Effects *)

(** The object [ChronosPipeline.from_pretrained] returns.  [handle_id]
    is its identity: two loads never return the same object. *)
Record Handle : Type := mkHandle {
  handle_id : nat;
  handle_model : string;
  handle_device : string
}.

(** [forecasts[0].numpy()]: a two-dimensional array, the rows being the
    sampled paths. *)
Record ndarray : Type := mkArray {
  rows : list (list Q);
  ncols : nat
}.

Inductive exn : Type :=
| IndexError
| TypeError
| OverflowError
| AttributeError
| EngineError
| SystemExit (code : Z).

Inductive effect : Type :=
| Stderr (line : string)
| StdoutJson (doc : pyval)
| FromPretrained (model device : string)
| Predict (h : Handle) (context : list Q) (prediction_length num_samples : Z).

Record World : Type := mkWorld {
  _pipeline : option Handle;
  _model_name : option string;
  next_id : nat;
  draws : nat;
  trace : list effect
}.

(** The external collaborators.  [predict] receives the number of
    predictions already drawn, so that two calls need not return the same
    samples; [None] is a failure raised by the engine. *)
Record Engine : Type := mkEngine {
  cuda_is_available : bool;
  from_pretrained_ok : string -> string -> bool;
  predict : nat -> Handle -> list Q -> Z -> Z -> option ndarray
}.

Inductive result (A : Type) : Type :=
| Ok (a : A)
| Raise (e : exn).
Arguments Ok {A} a.
Arguments Raise {A} e.

Definition M (A : Type) : Type := World -> result A * World.

Definition ret {A} (a : A) : M A := fun w => (Ok a, w).

Definition raise {A} (e : exn) : M A := fun w => (Raise e, w).

Definition bind {A B} (m : M A) (k : A -> M B) : M B :=
  fun w =>
    match m w with
    | (Ok a, w') => k a w'
    | (Raise e, w') => (Raise e, w')
    end.

Notation "x <- m ;; k" := (bind m (fun x => k))
  (at level 61, m at next level, right associativity).
Notation "m ;;; k" := (bind m (fun _ => k))
  (at level 61, right associativity).

Definition lift {A} (r : result A) : M A := fun w => (r, w).

(** Sequencing of code that can raise but touches no state. *)
Definition and_then {A B} (r : result A) (k : A -> result B) : result B :=
  match r with
  | Ok a => k a
  | Raise e => Raise e
  end.

Notation "x <-? r ;; k" := (and_then r (fun x => k))
  (at level 61, r at next level, right associativity).

Definition emit (e : effect) : M unit :=
  fun w => (Ok tt, mkWorld (_pipeline w) (_model_name w) (next_id w) (draws w)
                           (trace w ++ [e])).

(** Reading the module globals. *)
Definition globals : M World := fun w => (Ok w, w).

(** The state of a fresh process. *)
Definition initial_world : World := mkWorld None None 0 0 [].

(** How many times the engine was asked to load a model, and to predict. *)
Definition is_load (e : effect) : bool :=
  match e with FromPretrained _ _ => true | _ => false end.

Definition is_predict (e : effect) : bool :=
  match e with Predict _ _ _ _ => true | _ => false end.

Definition load_count (w : World) : nat := List.length (filter is_load (trace w)).

Definition predict_count (w : World) : nat :=
  List.length (filter is_predict (trace w)).

(** ** get_pipeline *)

Definition model_map : list (string * string) :=
  [ ("tiny", "amazon/chronos-bolt-tiny");
    ("small", "amazon/chronos-bolt-small");
    ("base", "amazon/chronos-bolt-base");
    ("mini", "amazon/chronos-t5-mini");
    ("large", "amazon/chronos-t5-large") ].

(** [model_map.get(model_size, "amazon/chronos-bolt-small")]. *)
Definition target_model (model_size : string) : string :=
  get_default String.eqb model_map model_size "amazon/chronos-bolt-small".

Definition option_string_eqb (a : option string) (b : string) : bool :=
  match a with
  | Some s => String.eqb s b
  | None => false
  end.

Definition is_none {A} (o : option A) : bool :=
  match o with None => true | Some _ => false end.

(** ** numpy reductions *)

Module QOrder <: TotalLeBool.
Definition t : Type := Q.
Definition leb (x y : Q) : bool := Qle_bool x y.
Theorem leb_total : forall x y, leb x y = true \/ leb y x = true.
Proof.
  intros x y. unfold leb. rewrite !Qle_bool_iff.
  destruct (Qlt_le_dec x y) as [H | H]; [left; apply Qlt_le_weak | right];
    exact H.
Qed.
End QOrder.

Module QSort := Sort QOrder.

(** [not l]: the list is empty. *)
Definition is_empty {A} (l : list A) : bool :=
  match l with [] => true | _ => false end.

(** A float32 or float64 value of numpy. *)
Inductive npfloat : Type :=
| Finite (q : Q)
| Infinite (negative : bool)
| NaN.

(** The largest finite float32 is 2^128 - 2^104, the largest finite float64
    is 2^1024 - 2^971.  An exact result that lies half a unit in the last
    place beyond them, or further, rounds to infinity. *)
Definition float32_limit : Q := inject_Z (2 ^ 128 - 2 ^ 103).

Definition float64_limit : Q := inject_Z (2 ^ 1024 - 2 ^ 970).

Arguments float32_limit : simpl never.
Arguments float64_limit : simpl never.

(** The float32 an operation returns when its exact result is [x]. *)
Definition float32 (x : Q) : npfloat :=
  if Qle_bool float32_limit x then Infinite false
  else if Qle_bool x (- float32_limit) then Infinite true
  else Finite x.

(** numpy's [_lerp(a, b, t)] between two neighbouring order statistics:
    [a + (b - a) * t], replaced by [b - (b - a) * (1 - t)] where
    [t >= 0.5].  The difference is a float32 and can overflow; an infinite
    difference times a weight of 0 is [nan]. *)
Definition np_lerp (a b t : Q) : npfloat :=
  match float32 (b - a) with
  | Finite diff_b_a =>
      if Qle_bool (1 # 2) t
      then Finite (b - diff_b_a * (1 - t))
      else Finite (a + diff_b_a * t)
  | Infinite negative =>
      if Qeq_bool t 0 then NaN
      else Infinite (if Qle_bool (1 # 2) t then negb negative else negative)
  | NaN => NaN
  end.

(** The percentile [q] of one column with data, as [np.percentile]
    computes it with the default method (linear): numpy takes the virtual
    index [(n - 1) * q / 100] in the sorted column, the elements at its
    floor and at the next index, clipped to the last one, and the
    fractional part as the weight. *)
Definition quantile (a : list Q) (q : Q) : npfloat :=
  let s := QSort.sort a in
  let n := inject_Z (Z.of_nat (List.length s)) in
  let virtual_index := (n - 1) * (q / 100) in
  let previous := Z.to_nat (Qfloor virtual_index) in
  let next := Nat.min (S previous) (List.length s - 1) in
  let gamma := virtual_index - inject_Z (Qfloor virtual_index) in
  np_lerp (nth previous s 0) (nth next s 0) gamma.

(** [np.median(a)] on one column: the middle element, or the float32 mean
    of the two middle elements, whose sum can overflow; [nan] when there is
    no data. *)
Definition np_median (a : list Q) : npfloat :=
  match a with
  | [] => NaN
  | _ =>
      let s := QSort.sort a in
      let n := List.length s in
      let index := Nat.div n 2 in
      if Nat.even n
      then match float32 (nth (index - 1) s 0 + nth index s 0) with
           | Finite total => Finite (total / 2)
           | overflow => overflow
           end
      else Finite (nth index s 0)
  end.

(** Column [j] of a two-dimensional array. *)
Definition column (a : ndarray) (j : nat) : list Q :=
  map (fun row => nth j row 0) (rows a).

(** A reduction along [axis=0]: one value per column. *)
Definition along_axis0 {A : Type} (f : list Q -> A) (a : ndarray) : list A :=
  map (fun j => f (column a j)) (seq 0 (ncols a)).

(** [np.percentile(a, q, axis=0)]: one percentile per column.  numpy
    indexes the sorted rows, which raises on an array without rows,
    whatever the number of its columns. *)
Definition np_percentile (a : ndarray) (q : Q) : result (list npfloat) :=
  if is_empty (rows a) then Raise IndexError
  else Ok (along_axis0 (fun c => quantile c q) a).

Definition of_float (x : npfloat) : pyval :=
  match x with
  | Finite q => PyNum q
  | Infinite negative => PyInf negative
  | NaN => PyNaN
  end.

(** [.tolist()] of a one-dimensional and of a two-dimensional array. *)
Definition tolist1 (v : list npfloat) : pyval := PyList (map of_float v).

Definition tolist2 (a : ndarray) : pyval :=
  PyList (map (fun row => PyList (map PyNum row)) (rows a)).

Fixpoint Qsum (l : list Q) : Q :=
  match l with
  | [] => 0
  | x :: l' => x + Qsum l'
  end.

Definition as_number (a : atom) : result Q :=
  match a with
  | ANum q => Ok q
  | _ => Raise TypeError
  end.

Fixpoint as_numbers (l : list atom) : result (list Q) :=
  match l with
  | [] => Ok []
  | a :: l' =>
      q <-? as_number a ;;
      qs <-? as_numbers l' ;;
      Ok (q :: qs)
  end.

(** [np.mean(l)] of a non-empty Python list of scalars; anything but
    numbers is a type error.  The mean is the exact one: the rounding of
    the float64 sum is not modelled. *)
Definition np_mean (l : list atom) : result Q :=
  qs <-? as_numbers l ;;
  Ok (Qsum qs / inject_Z (Z.of_nat (List.length qs))).

(** ** Python built-ins *)

(** [r > 0] and [r < 0]. *)
Definition gt_zero (r : atom) : result bool :=
  q <-? as_number r ;; Ok (negb (Qle_bool q 0)).

Definition lt_zero (r : atom) : result bool :=
  q <-? as_number r ;; Ok (negb (Qle_bool 0 q)).

(** [sum(1 for r in l if test(r))]. *)
Fixpoint count_if (test : atom -> result bool) (l : list atom) : result Z :=
  match l with
  | [] => Ok 0%Z
  | r :: l' =>
      b <-? test r ;;
      n <-? count_if test l' ;;
      Ok (if b then (1 + n)%Z else n)
  end.

(** [abs(x)]. *)
Definition py_abs (x : atom) : result Q :=
  q <-? as_number x ;; Ok (Qabs q).

(** [x / y] for a divisor that is not zero: the quotient of two integers
    that is too large for a float raises; a quotient of that size has no
    other origin, a float being at most the largest float64. *)
Definition py_truediv (x y : Q) : result Q :=
  if Qle_bool float64_limit (Qabs (x / y)) then Raise OverflowError
  else Ok (x / y).

(** [min(x, y)]: the first argument unless the second is smaller. *)
Definition py_min (x y : Q) : Q := if Qle_bool x y then x else y.

(** [l[-1]]. *)
Definition last_item (l : list Q) : result Q :=
  match rev l with
  | [] => Raise IndexError
  | x :: _ => Ok x
  end.

(** [torch.tensor(prices, dtype=torch.float32)]: every price is converted
    to a float, which raises for an integer too large for one. *)
Definition torch_tensor (prices : list Q) : result (list Q) :=
  if forallb (fun price => negb (Qle_bool float64_limit (Qabs price))) prices
  then Ok prices
  else Raise OverflowError.

(** ** forecast_with_events, the event statistics *)

(** The loop that counts the events of each classification, and its body. *)
Definition count_type (event_types : list (atom * Z)) (e : EventRecord)
    : list (atom * Z) :=
  let cls := event_get_or e "classification" (AStr "unknown") in
  store atom_eqb event_types cls (get_default atom_eqb event_types cls 0%Z + 1)%Z.

Definition count_types (events : list EventRecord) : list (atom * Z) :=
  fold_left count_type events [].

(** The value stored under [event_context] for a non-empty list of events. *)
Definition event_statistics (events : list EventRecord) : result pyval :=
  let event_returns :=
    map (fun e => event_get_or e "residual_return" (ANum 0))
        (filter (fun e => truthy (event_get e "residual_return")) events) in
  let event_strengths :=
    map (fun e => event_get_or e "strength" (ANum 0))
        (filter (fun e => truthy (event_get e "strength")) events) in
  avg_event_return <-?
    (if is_empty event_returns then Ok 0 else np_mean event_returns) ;;
  avg_event_strength <-?
    (if is_empty event_strengths then Ok 0 else np_mean event_strengths) ;;
  positive_events <-? count_if gt_zero event_returns ;;
  negative_events <-? count_if lt_zero event_returns ;;
  let event_bias :=
    inject_Z (positive_events - negative_events)
    / inject_Z (Z.max (Z.of_nat (List.length event_returns)) 1) in
  let event_types := count_types events in
  Ok (PyDict
        [ (AStr "num_events", PyInt (Z.of_nat (List.length events)));
          (AStr "avg_event_return", PyNum avg_event_return);
          (AStr "avg_event_strength", PyNum avg_event_strength);
          (AStr "event_bias", PyNum event_bias);
          (AStr "positive_events", PyInt positive_events);
          (AStr "negative_events", PyInt negative_events);
          (AStr "event_types",
           PyDict (map (fun '(cls, n) => (cls, PyInt n)) event_types)) ]).

(** ** forecast_post_event, the event analysis *)

Definition continuation_factors : list (atom * Q) :=
  [ (AStr "surprising_positive", 3 # 10);
    (AStr "positive_anticipated", - (1 # 10));
    (AStr "negative_anticipated", 1 # 10);
    (AStr "surprising_negative", - (2 # 10)) ].

(** The value stored under [event_analysis] for a truthy event. *)
Definition event_analysis (event : EventRecord) : result pyval :=
  let classification := event_get_or event "classification" (AStr "unknown") in
  let strength := event_get_or event "strength" (ANum 0) in
  let residual_return := event_get_or event "residual_return" (ANum 0) in
  let continuation := get_default atom_eqb continuation_factors classification 0 in
  magnitude <-? py_abs strength ;;
  ratio <-? py_truediv magnitude 10 ;;
  Ok (PyDict
        [ (AStr "classification", Atom classification);
          (AStr "strength", Atom strength);
          (AStr "residual_return", Atom residual_return);
          (AStr "expected_continuation", PyNum continuation);
          (AStr "confidence", PyNum (py_min ratio 1)) ]).

(** ** The command line *)

Inductive Mode : Type := forecast | with_events | post_event.

Record Args : Type := mkArgs {
  mode : Mode;
  model : string;
  days : Z
}.

(** The JSON object read from the input; a key that is missing or null is
    [None]. *)
Record Data : Type := mkData {
  data_prices : option (list Q);
  data_events : option (list EventRecord);
  data_event : option EventRecord
}.

Definition or_default {A} (o : option A) (default : A) : A :=
  match o with
  | Some a => a
  | None => default
  end.

(** ** The program *)

(** ["cuda" if torch.cuda.is_available() else "cpu"]. *)
Definition torch_device (E : Engine) : string :=
  if cuda_is_available E then "cuda" else "cpu".

Section Program.
Variable E : Engine.

(** [ChronosPipeline.from_pretrained(model, device_map=device, ...)]:
    logged, then either raises or allocates a new object. *)
Definition from_pretrained (model device : string) : M Handle :=
  emit (FromPretrained model device) ;;;
  fun w =>
    if from_pretrained_ok E model device
    then (Ok (mkHandle (next_id w) model device),
          mkWorld (_pipeline w) (_model_name w) (S (next_id w)) (draws w)
                  (trace w))
    else (Raise EngineError, w).

Definition set_cache (h : Handle) (name : string) : M unit :=
  fun w => (Ok tt, mkWorld (Some h) (Some name) (next_id w) (draws w) (trace w)).

Definition get_pipeline (model_size : string) : M (option Handle) :=
  let target := target_model model_size in
  g <- globals ;;
  (if is_none (_pipeline g) || negb (option_string_eqb (_model_name g) target)
   then
     let device := torch_device E in
     emit (Stderr ("Loading " ++ target ++ " on " ++ device ++ "...")) ;;;
     h <- from_pretrained target device ;;
     set_cache h target
   else ret tt) ;;;
  g' <- globals ;;
  ret (_pipeline g').

(** [pipeline.predict(context, prediction_length=..., num_samples=...)]
    followed by [forecasts[0].numpy()]. *)
Definition pipeline_predict (pipeline : option Handle) (context : list Q)
    (prediction_length num_samples : Z) : M ndarray :=
  match pipeline with
  | None => raise AttributeError
  | Some h =>
      emit (Predict h context prediction_length num_samples) ;;;
      fun w =>
        let w' := mkWorld (_pipeline w) (_model_name w) (next_id w)
                          (S (draws w)) (trace w) in
        match predict E (draws w) h context prediction_length num_samples with
        | Some a => (Ok a, w')
        | None => (Raise EngineError, w')
        end
  end.

Definition forecast_prices (prices : list Q) (prediction_length num_samples : Z)
    (model_size : string) : M record :=
  pipeline <- get_pipeline model_size ;;
  context <- lift (torch_tensor prices) ;;
  forecast_np <- pipeline_predict pipeline context prediction_length num_samples ;;
  let median := along_axis0 np_median forecast_np in
  low_10 <- lift (np_percentile forecast_np 10) ;;
  high_90 <- lift (np_percentile forecast_np 90) ;;
  low_25 <- lift (np_percentile forecast_np 25) ;;
  high_75 <- lift (np_percentile forecast_np 75) ;;
  last_price <- lift (last_item prices) ;;
  ret [ (AStr "median", tolist1 median);
        (AStr "low_10", tolist1 low_10);
        (AStr "high_90", tolist1 high_90);
        (AStr "low_25", tolist1 low_25);
        (AStr "high_75", tolist1 high_75);
        (AStr "samples", tolist2 forecast_np);
        (AStr "last_price", PyNum last_price);
        (AStr "prediction_length", PyInt prediction_length) ].

Definition forecast_with_events (prices : list Q) (events : list EventRecord)
    (prediction_length : Z) (model_size : string) : M record :=
  base_forecast <- forecast_prices prices prediction_length 20 model_size ;;
  if is_empty events
  then ret (with_field base_forecast "event_context" PyNone)
  else
    context <- lift (event_statistics events) ;;
    ret (with_field base_forecast "event_context" context).

Definition forecast_post_event (prices : list Q) (event : option EventRecord)
    (prediction_length : Z) (model_size : string) : M record :=
  base_forecast <- forecast_prices prices prediction_length 20 model_size ;;
  match event with
  | None => ret base_forecast
  | Some e =>
      if is_empty e
      then ret base_forecast
      else
        analysis <- lift (event_analysis e) ;;
        ret (with_field base_forecast "event_analysis" analysis)
  end.

Definition main (args : Args) (data : Data) : M unit :=
  let prices := or_default (data_prices data) [] in
  let events := or_default (data_events data) [] in
  let event := data_event data in
  if is_empty prices
  then
    emit (StdoutJson (PyDict [(AStr "error", PyStr "No prices provided")])) ;;;
    raise (SystemExit 1)
  else
    result <-
      match mode args with
      | forecast => forecast_prices prices (days args) 20 (model args)
      | with_events => forecast_with_events prices events (days args) (model args)
      | post_event => forecast_post_event prices event (days args) (model args)
      end ;;
    emit (StdoutJson (PyDict result)).
End Program.

(** * Definitions used in the statements *)

(** ** A stub forecaster

    The engine of the end-to-end example: every load succeeds, and every
    prediction is the same array of four sampled paths of three steps. *)

Definition stub_samples : ndarray :=
  mkArray [ [101; 104; 99];
            [103; 102; 105];
            [102; 108; 97];
            [104; 100; 101] ] 3.

Definition stub_engine : Engine :=
  mkEngine false (fun _ _ => true) (fun _ _ _ _ _ => Some stub_samples).

(** ** The model cache *)

(** Object identities are handed out in increasing order: the cached
    handle is older than the next one to be allocated. *)
Definition fresh_ids (w : World) : Prop :=
  match _pipeline w with
  | Some h => (handle_id h < next_id w)%nat
  | None => True
  end.

(** The cache holds a handle that was built from [name]. *)
Definition cached (w : World) (name : string) : Prop :=
  (exists h, _pipeline w = Some h) /\ _model_name w = Some name.

Definition loading_line (E : Engine) (name : string) : string :=
  "Loading " ++ name ++ " on " ++ torch_device E ++ "...".

(** The world after a successful load of [name] into the cache. *)
Definition loaded (E : Engine) (name : string) (w : World) : World :=
  mkWorld (Some (mkHandle (next_id w) name (torch_device E))) (Some name)
          (S (next_id w)) (draws w)
          (trace w ++ [Stderr (loading_line E name)]
                   ++ [FromPretrained name (torch_device E)]).

(** ** Resolution of the model size *)

Definition recognized_sizes : list string :=
  ["tiny"; "mini"; "small"; "base"; "large"].

(** ** Percentiles of one column *)

(** The list is in nondecreasing order, read by index. *)
Definition nondecreasing (s : list Q) : Prop :=
  forall i j, (i <= j < List.length s)%nat -> nth i s 0 <= nth j s 0.

(** The exact value between two neighbouring order statistics. *)
Definition lerp (a b t : Q) : Q := a + (b - a) * t.

(** The exact linear interpolation in the sorted list [s] at the virtual
    index [h]. *)
Definition interpolate (s : list Q) (h : Q) : Q :=
  let previous := Z.to_nat (Qfloor h) in
  let next := Nat.min (S previous) (List.length s - 1) in
  let gamma := h - inject_Z (Qfloor h) in
  lerp (nth previous s 0) (nth next s 0) gamma.

(** The exact percentile of a column. *)
Definition exact_percentile (a : list Q) (q : Q) : Q :=
  let s := QSort.sort a in
  interpolate s ((inject_Z (Z.of_nat (List.length s)) - 1) * (q / 100)).

(** No sum and no difference of two values of the column reaches the
    overflow threshold of float32. *)
Definition no_overflow (c : list Q) : Prop :=
  forall x y, In x c -> In y c ->
    Qabs (x + y) < float32_limit /\ Qabs (y - x) < float32_limit.

(** The same at every step of the sampled paths. *)
Definition within_float32 (a : ndarray) : Prop :=
  forall j, (j < ncols a)%nat -> no_overflow (column a j).

(** Half of the range of float32: values this small neither add nor
    subtract to an overflow. *)
Definition float32_half : Q := inject_Z (2 ^ 126).

Definition small (a : ndarray) : bool :=
  forallb (forallb (fun x => Qle_bool (Qabs x) float32_half)) (rows a).

(** ** forecast_prices *)

(** The record [forecast_prices] builds from the sampled paths. *)
Definition summary (forecast_np : ndarray) (last_price : Q)
    (prediction_length : Z) : record :=
  [ (AStr "median", tolist1 (along_axis0 np_median forecast_np));
    (AStr "low_10", tolist1 (along_axis0 (fun a => quantile a 10) forecast_np));
    (AStr "high_90", tolist1 (along_axis0 (fun a => quantile a 90) forecast_np));
    (AStr "low_25", tolist1 (along_axis0 (fun a => quantile a 25) forecast_np));
    (AStr "high_75", tolist1 (along_axis0 (fun a => quantile a 75) forecast_np));
    (AStr "samples", tolist2 forecast_np);
    (AStr "last_price", PyNum last_price);
    (AStr "prediction_length", PyInt prediction_length) ].

(** The world after a prediction with the handle [h]. *)
Definition predicted (h : Handle) (context : list Q)
    (prediction_length num_samples : Z) (w : World) : World :=
  mkWorld (_pipeline w) (_model_name w) (next_id w) (S (draws w))
          (trace w ++ [Predict h context prediction_length num_samples]).

(** What follows the prediction: the percentiles raise on an array without
    rows, and [prices[-1]] on an empty list of prices. *)
Definition summarize (forecast_np : ndarray) (prices : list Q)
    (prediction_length : Z) : result record :=
  if is_empty (rows forecast_np) then Raise IndexError
  else
    last_price <-? last_item prices ;;
    Ok (summary forecast_np last_price prediction_length).

Definition finite_or (x : npfloat) (default : Q) : Q :=
  match x with
  | Finite q => q
  | _ => default
  end.

(** Values of a reduction along axis 0, when they are finite. *)
Definition values (f : list Q -> npfloat) (a : ndarray) : list Q :=
  map (fun j => finite_or (f (column a j)) 0) (seq 0 (ncols a)).

(** ** The run used in the examples *)

Definition example_prices : list Q := [100; 101; 99; 102; 103].

Definition example_base : record := summary stub_samples 103 3.

Definition example_world : World :=
  predicted (mkHandle 0 "amazon/chronos-bolt-small" "cpu") example_prices 3 20
    (loaded stub_engine "amazon/chronos-bolt-small" initial_world).

(** ** The event analysis *)

Definition is_number (a : atom) : bool :=
  match a with ANum _ => true | _ => false end.




Definition absent (e : EventRecord) (key : string) : Prop :=
  lookup String.eqb e key = None.

(** The strength of the record, 0 when the key is absent, is a number whose
    magnitude divided by 10 is below the overflow threshold of a float. *)
Definition strength_fits (e : EventRecord) : bool :=
  match event_get_or e "strength" (ANum 0) with
  | ANum strength => negb (Qle_bool float64_limit (Qabs strength / 10))
  | _ => false
  end.

(** The record of the analysis, for a numeric strength. *)
Definition analysis_of (e : EventRecord) (strength : Q) : list (atom * pyval) :=
  let classification := event_get_or e "classification" (AStr "unknown") in
  [ (AStr "classification", Atom classification);
    (AStr "strength", PyNum strength);
    (AStr "residual_return", Atom (event_get_or e "residual_return" (ANum 0)));
    (AStr "expected_continuation",
     PyNum (get_default atom_eqb continuation_factors classification 0));
    (AStr "confidence", PyNum (py_min (Qabs strength / 10) 1)) ].

(** ** The event statistics *)

(** The two lists [forecast_with_events] filters out of the events. *)
Definition event_returns (events : list EventRecord) : list atom :=
  map (fun e => event_get_or e "residual_return" (ANum 0))
      (filter (fun e => truthy (event_get e "residual_return")) events).

Definition event_strengths (events : list EventRecord) : list atom :=
  map (fun e => event_get_or e "strength" (ANum 0))
      (filter (fun e => truthy (event_get e "strength")) events).






(** The context, given the four intermediate values. *)
Definition context_of (events : list EventRecord) (avg_event_return
    avg_event_strength : Q) (positive_events negative_events : Z)
    : list (atom * pyval) :=
  [ (AStr "num_events", PyInt (Z.of_nat (List.length events)));
    (AStr "avg_event_return", PyNum avg_event_return);
    (AStr "avg_event_strength", PyNum avg_event_strength);
    (AStr "event_bias",
     PyNum (inject_Z (positive_events - negative_events)
            / inject_Z (Z.max (Z.of_nat (List.length (event_returns events))) 1)));
    (AStr "positive_events", PyInt positive_events);
    (AStr "negative_events", PyInt negative_events);
    (AStr "event_types",
     PyDict (map (fun '(cls, n) => (cls, PyInt n)) (count_types events))) ].

Definition example_events : list EventRecord :=
  [ [("classification", AStr "surprising_positive");
     ("strength", ANum 8); ("residual_return", ANum 2)];
    [("residual_return", ANum (3 # 2))];
    [("strength", ANum 4); ("residual_return", ANum (-1))];
    [("classification", AStr "negative_anticipated"); ("residual_return", ANum 0)];
    [] ].

(** ** Events without fields *)

(** None of the three fields of the data model is in the record. *)
Definition all_absent (e : EventRecord) : Prop :=
  absent e "classification" /\ absent e "strength" /\ absent e "residual_return".

(** The context of [n] events without fields. *)
Definition empty_context (n : nat) : list (atom * pyval) :=
  [ (AStr "num_events", PyInt (Z.of_nat n));
    (AStr "avg_event_return", PyNum 0);
    (AStr "avg_event_strength", PyNum 0);
    (AStr "event_bias", PyNum 0);
    (AStr "positive_events", PyInt 0);
    (AStr "negative_events", PyInt 0);
    (AStr "event_types", PyDict [(AStr "unknown", PyInt (Z.of_nat n))]) ].

(** ** The state between calls *)

(** The world after a load of [name] that the engine refused. *)
Definition attempted (E : Engine) (name : string) (w : World) : World :=
  mkWorld (_pipeline w) (_model_name w) (next_id w) (draws w)
          (trace w ++ [Stderr (loading_line E name)]
                   ++ [FromPretrained name (torch_device E)]).

(** The recorded identifier is the one the cached handle was built from. *)
Definition coherent (w : World) : Prop :=
  match _pipeline w with
  | Some h => _model_name w = Some (handle_model h)
  | None => _model_name w = None
  end.

Definition is_stdout (e : effect) : bool :=
  match e with StdoutJson _ => true | _ => false end.

(** How many documents were printed on standard output. *)
Definition stdout_count (w : World) : nat :=
  List.length (filter is_stdout (trace w)).

(** An engine whose loads all fail. *)
Definition offline_engine : Engine :=
  mkEngine false (fun _ _ => false) (fun _ _ _ _ _ => Some stub_samples).

(** The call [main] makes for the mode it was given. *)
Definition run_mode (E : Engine) (args : Args) (data : Data) : M record :=
  let prices := or_default (data_prices data) [] in
  let events := or_default (data_events data) [] in
  let event := data_event data in
  match mode args with
  | forecast => forecast_prices E prices (days args) 20 (model args)
  | with_events => forecast_with_events E prices events (days args) (model args)
  | post_event => forecast_post_event E prices event (days args) (model args)
  end.

(** The world after [print(json.dumps(doc))]. *)
Definition printed (doc : pyval) (w : World) : World :=
  mkWorld (_pipeline w) (_model_name w) (next_id w) (draws w)
          (trace w ++ [StdoutJson doc]).

(** ** Classifications *)

(** The classification an event is counted under. *)
Definition classification_of (e : EventRecord) : atom :=
  event_get_or e "classification" (AStr "unknown").

(** The number of events counted under [c]. *)
Definition count_classified (c : atom) (events : list EventRecord) : Z :=
  Z.of_nat
    (List.length (filter (fun e => atom_eqb (classification_of e) c) events)).

(** The entry of a counter after [k] more occurrences. *)
Definition bump (entry : option Z) (k : Z) : option Z :=
  match entry with
  | Some v => Some (v + k)%Z
  | None => if (k =? 0)%Z then None else Some k
  end.

Fixpoint total (d : list (atom * Z)) : Z :=
  match d with
  | [] => 0%Z
  | (_, v) :: d' => (v + total d')%Z
  end.

(** ** Values the statistics accept *)



(** The keys of the context that depend on the values of the events only. *)
Definition value_keys : list string :=
  ["avg_event_return"; "avg_event_strength"; "event_bias";
   "positive_events"; "negative_events"].

(** ** Reading the bands *)

(** Entry [i] of the list stored under [key]. *)
Definition band (r : record) (key : string) (i : nat) : option pyval :=
  match field r key with
  | Some (PyList l) => nth_error l i
  | _ => None
  end.

Definition band_keys : list string :=
  ["median"; "low_10"; "high_90"; "low_25"; "high_75"].

(** * Properties *)

(** ** The model cache *)

Lemma cached_dec (w : World) (name : string) :
  {cached w name} + {_pipeline w = None \/ _model_name w <> Some name}.
Proof.
  unfold cached. destruct (_pipeline w) as [h |].
  - destruct (_model_name w) as [s |].
    + destruct (string_dec s name) as [-> | Hne].
      * left. split; [exists h |]; reflexivity.
      * right. right. intros Heq. injection Heq as Heq. contradiction.
    + right. right. discriminate.
  - right. left. reflexivity.
Qed.

Lemma get_pipeline_hit (E : Engine) (model_size : string) (w : World) (h : Handle) :
  _pipeline w = Some h ->
  _model_name w = Some (target_model model_size) ->
  get_pipeline E model_size w = (Ok (Some h), w).
Proof.
  intros Hp Hn. unfold get_pipeline, bind, globals, ret.
  rewrite Hp, Hn. cbn. rewrite String.eqb_refl. cbn. rewrite Hp. reflexivity.
Qed.

Lemma miss_condition (w : World) (name : string) :
  _pipeline w = None \/ _model_name w <> Some name ->
  is_none (_pipeline w) || negb (option_string_eqb (_model_name w) name) = true.
Proof.
  intros [Hp | Hn].
  - rewrite Hp. reflexivity.
  - apply orb_true_iff. right. destruct (_model_name w) as [s |]; cbn.
    + destruct (String.eqb_spec s name) as [-> | _]; [contradiction | reflexivity].
    + reflexivity.
Qed.

Lemma get_pipeline_miss (E : Engine) (model_size : string) (w : World) :
  _pipeline w = None \/ _model_name w <> Some (target_model model_size) ->
  from_pretrained_ok E (target_model model_size) (torch_device E) = true ->
  get_pipeline E model_size w
  = (Ok (_pipeline (loaded E (target_model model_size) w)),
     loaded E (target_model model_size) w).
Proof.
  intros Hmiss Hok. unfold get_pipeline, bind, globals, ret.
  rewrite (miss_condition _ _ Hmiss).
  unfold emit, from_pretrained, bind, emit, set_cache. cbn.
  rewrite Hok. cbn. unfold loaded, loading_line. rewrite <- app_assoc.
  reflexivity.
Qed.

(** A load that fails leaves the cache as it was. *)
Lemma get_pipeline_miss_fails (E : Engine) (model_size : string) (w : World) :
  _pipeline w = None \/ _model_name w <> Some (target_model model_size) ->
  from_pretrained_ok E (target_model model_size) (torch_device E) = false ->
  exists w',
    get_pipeline E model_size w = (Raise EngineError, w')
    /\ _pipeline w' = _pipeline w /\ _model_name w' = _model_name w.
Proof.
  intros Hmiss Hok. unfold get_pipeline, bind, globals, ret.
  rewrite (miss_condition _ _ Hmiss).
  unfold emit, from_pretrained, bind, emit, set_cache. cbn.
  rewrite Hok. eexists. split; [reflexivity |]. split; reflexivity.
Qed.

Lemma load_count_loaded (E : Engine) (name : string) (w : World) :
  load_count (loaded E name w) = S (load_count w).
Proof.
  unfold load_count, loaded. cbn [trace].
  rewrite !filter_app, !length_app. cbn. lia.
Qed.

Lemma fresh_ids_loaded (E : Engine) (name : string) (w : World) :
  fresh_ids (loaded E name w).
Proof. unfold fresh_ids, loaded. cbn. lia. Qed.

Lemma cached_loaded (E : Engine) (name : string) (w : World) :
  cached (loaded E name w) name.
Proof. unfold cached, loaded. cbn. split; [eexists |]; reflexivity. Qed.

(** One call, from any state: the cache ends up holding a handle for the
    resolved identifier, reached without a load when it was already there
    and with one load otherwise. *)
Lemma get_pipeline_spec (E : Engine) (model_size : string) (w : World) :
  fresh_ids w ->
  from_pretrained_ok E (target_model model_size) (torch_device E) = true ->
  exists h w',
    get_pipeline E model_size w = (Ok (Some h), w')
    /\ _pipeline w' = Some h
    /\ _model_name w' = Some (target_model model_size)
    /\ fresh_ids w'
    /\ (cached w (target_model model_size) -> w' = w)
    /\ (_pipeline w = None \/ _model_name w <> Some (target_model model_size) ->
        w' = loaded E (target_model model_size) w).
Proof.
  intros Hfresh Hok.
  destruct (cached_dec w (target_model model_size)) as [[[h Hp] Hn] | Hmiss].
  - exists h, w. rewrite (get_pipeline_hit E model_size w h Hp Hn).
    repeat split; try assumption.
    intros [Hnone | Hne]; [congruence | contradiction].
  - eexists _, _. rewrite (get_pipeline_miss E model_size w Hmiss Hok).
    split; [reflexivity |]. repeat split.
    + apply fresh_ids_loaded.
    + intros [[h Hp] Hn]. destruct Hmiss as [Hnone | Hne];
        [congruence | contradiction].
Qed.

(** C3. Two consecutive calls of [get_pipeline], loads succeeding.  The
    first call leaves a handle for its identifier in the cache, loading
    exactly once when none was cached or the cached identifier differed
    and not at all otherwise.  If the second call resolves to the same
    identifier it returns that very handle and changes nothing (no load);
    if it resolves to another identifier, exactly one load occurs and a new
    handle replaces the old one in the single slot of the cache. *)
Theorem cache_coherence (E : Engine) (size1 size2 : string)
    (w w1 w2 : World) (r1 r2 : result (option Handle)) :
  fresh_ids w ->
  from_pretrained_ok E (target_model size1) (torch_device E) = true ->
  from_pretrained_ok E (target_model size2) (torch_device E) = true ->
  get_pipeline E size1 w = (r1, w1) ->
  get_pipeline E size2 w1 = (r2, w2) ->
  exists h1,
    r1 = Ok (Some h1)
    /\ _pipeline w1 = Some h1
    /\ _model_name w1 = Some (target_model size1)
    /\ (cached w (target_model size1) -> w1 = w)
    /\ (_pipeline w = None \/ _model_name w <> Some (target_model size1) ->
        load_count w1 = S (load_count w))
    /\ (target_model size2 = target_model size1 ->
        r2 = Ok (Some h1) /\ w2 = w1)
    /\ (target_model size2 <> target_model size1 ->
        exists h2,
          r2 = Ok (Some h2)
          /\ handle_id h2 <> handle_id h1
          /\ handle_model h2 = target_model size2
          /\ _pipeline w2 = Some h2
          /\ _model_name w2 = Some (target_model size2)
          /\ load_count w2 = S (load_count w1)).
Proof.
  intros Hfresh Hok1 Hok2 Hcall1 Hcall2.
  destruct (get_pipeline_spec E size1 w Hfresh Hok1)
    as (h1 & w1' & Heq1 & Hp1 & Hn1 & Hfresh1 & Hhit1 & Hmiss1).
  rewrite Heq1 in Hcall1. injection Hcall1 as <- <-.
  exists h1.
  split; [reflexivity |]. split; [exact Hp1 |]. split; [exact Hn1 |].
  split; [exact Hhit1 |]. split.
  { intros Hmiss. rewrite (Hmiss1 Hmiss). apply load_count_loaded. }
  split.
  - intros Hsame.
    rewrite (get_pipeline_hit E size2 w1' h1 Hp1) in Hcall2
      by (rewrite Hn1, Hsame; reflexivity).
    injection Hcall2 as <- <-. split; reflexivity.
  - intros Hdiff.
    assert (Hmiss : _pipeline w1' = None
                    \/ _model_name w1' <> Some (target_model size2)).
    { right. rewrite Hn1. intros Heq. injection Heq as Heq. auto. }
    rewrite (get_pipeline_miss E size2 w1' Hmiss Hok2) in Hcall2.
    injection Hcall2 as <- <-.
    eexists. split; [reflexivity |]. cbn.
    split.
    { unfold fresh_ids in Hfresh1. rewrite Hp1 in Hfresh1. lia. }
    repeat split.
    apply (load_count_loaded E (target_model size2) w1').
Qed.

Lemma cache_coherence_witness :
  exists h1,
    get_pipeline stub_engine "small" initial_world
    = (Ok (Some h1), loaded stub_engine "amazon/chronos-bolt-small" initial_world)
    /\ (target_model "base" <> target_model "small" ->
        exists h2,
          Ok (Some (mkHandle 1 "amazon/chronos-bolt-base" "cpu")) = Ok (Some h2)
          /\ handle_id h2 <> handle_id h1).
Proof.
  destruct (cache_coherence stub_engine "small" "base" initial_world
              (loaded stub_engine "amazon/chronos-bolt-small" initial_world)
              (loaded stub_engine "amazon/chronos-bolt-base"
                 (loaded stub_engine "amazon/chronos-bolt-small" initial_world))
              (Ok (Some (mkHandle 0 "amazon/chronos-bolt-small" "cpu")))
              (Ok (Some (mkHandle 1 "amazon/chronos-bolt-base" "cpu"))))
    as (h1 & Hr1 & _ & _ & _ & _ & _ & Hswitch).
  - exact I.
  - reflexivity.
  - reflexivity.
  - reflexivity.
  - reflexivity.
  - exists h1. split.
    + rewrite <- Hr1. reflexivity.
    + intros Hdiff. destruct (Hswitch Hdiff) as (h2 & Hr2 & Hid & _).
      exists h2. split; assumption.
Defined.

(** ** Resolution of the model size *)

Lemma target_model_small : target_model "small" = "amazon/chronos-bolt-small".
Proof. reflexivity. Qed.

Lemma target_model_unrecognized (model_size : string) :
  ~ In model_size recognized_sizes ->
  target_model model_size = "amazon/chronos-bolt-small".
Proof.
  intros Hnot. unfold target_model, get_default, model_map, lookup.
  repeat match goal with
         | |- context [String.eqb ?k model_size] =>
             destruct (String.eqb_spec k model_size) as [Heq | _];
             [exfalso; apply Hnot; rewrite <- Heq; cbn; tauto |]
         end.
  reflexivity.
Qed.

(** C4. A model size that is not one of the five recognized ones resolves
    to the identifier that ["small"] resolves to, and [get_pipeline]
    behaves on it exactly as it does on ["small"]: same outcome, same
    final state, whatever the state it starts from. *)
Theorem model_size_fallback (E : Engine) (model_size : string) (w : World) :
  ~ In model_size recognized_sizes ->
  target_model model_size = target_model "small"
  /\ get_pipeline E model_size w = get_pipeline E "small" w.
Proof.
  intros Hnot.
  assert (Heq : target_model model_size = target_model "small").
  { rewrite target_model_small. apply target_model_unrecognized, Hnot. }
  split; [exact Heq |].
  unfold get_pipeline. rewrite Heq. reflexivity.
Qed.

Lemma model_size_fallback_witness :
  ~ In "unknown-size" recognized_sizes
  /\ target_model "unknown-size" = target_model "small"
  /\ get_pipeline stub_engine "unknown-size" initial_world
     = get_pipeline stub_engine "small" initial_world.
Proof.
  assert (Hnot : ~ In "unknown-size" recognized_sizes).
  { cbn. intros H. repeat destruct H as [H | H]; try discriminate H. exact H. }
  split; [exact Hnot |].
  apply (model_size_fallback stub_engine "unknown-size" initial_world Hnot).
Defined.

(** ** Percentiles of one column *)

Lemma Qle_bool_transitive :
  Transitive (fun x y : Q => is_true (QOrder.leb x y)).
Proof.
  intros x y z. unfold is_true, QOrder.leb. rewrite !Qle_bool_iff.
  apply Qle_trans.
Qed.

Lemma strongly_sorted_nondecreasing (s : list Q) :
  StronglySorted (fun x y => is_true (QOrder.leb x y)) s -> nondecreasing s.
Proof.
  induction 1 as [| a l Hl IH Hall]; intros i j Hij.
  - cbn in Hij. lia.
  - destruct i as [| i], j as [| j]; cbn [nth].
    + apply Qle_refl.
    + rewrite Forall_forall in Hall. apply Qle_bool_iff.
      apply Hall, nth_In. cbn in Hij. lia.
    + lia.
    + apply IH. cbn in Hij. lia.
Qed.

Lemma sort_nondecreasing (a : list Q) : nondecreasing (QSort.sort a).
Proof.
  apply strongly_sorted_nondecreasing, QSort.StronglySorted_sort,
    Qle_bool_transitive.
Qed.

Lemma sort_length (a : list Q) : List.length (QSort.sort a) = List.length a.
Proof. symmetry. apply Permutation_length, QSort.Permuted_sort. Qed.

Lemma Qfloor_unique (x : Q) (z : Z) :
  inject_Z z <= x -> x < inject_Z (z + 1) -> Qfloor x = z.
Proof.
  intros Hle Hlt.
  assert (H1 : (z <= Qfloor x)%Z).
  { rewrite <- (Qfloor_Z z). apply Qfloor_resp_le, Hle. }
  assert (H2 : (Qfloor x < z + 1)%Z).
  { rewrite Zlt_Qlt. eapply Qle_lt_trans; [apply Qfloor_le | exact Hlt]. }
  lia.
Qed.

Lemma lerp_between (a b t : Q) :
  a <= b -> 0 <= t -> t <= 1 -> a <= lerp a b t /\ lerp a b t <= b.
Proof. intros Hab H0 H1. unfold lerp. split; nra. Qed.

Lemma lerp_mono (a b t u : Q) :
  a <= b -> t <= u -> lerp a b t <= lerp a b u.
Proof. intros Hab Htu. unfold lerp. nra. Qed.

Section Interpolation.
Variable s : list Q.
Hypothesis s_sorted : nondecreasing s.

Let last_index : Q := inject_Z (Z.of_nat (List.length s)) - 1.

(** Inside the index range the two neighbours exist and are ordered. *)
Lemma neighbours (h : Q) :
  0 <= h -> h <= last_index ->
  let previous := Z.to_nat (Qfloor h) in
  let next := Nat.min (S previous) (List.length s - 1) in
  (0 <= Qfloor h)%Z
  /\ (previous <= next < List.length s)%nat
  /\ 0 <= h - inject_Z (Qfloor h) /\ h - inject_Z (Qfloor h) <= 1.
Proof.
  intros H0 Hn. cbn zeta.
  assert (Hf0 : (0 <= Qfloor h)%Z).
  { rewrite <- (Qfloor_Z 0). apply Qfloor_resp_le. exact H0. }
  assert (Hfn : (Qfloor h <= Z.of_nat (List.length s) - 1)%Z).
  { rewrite <- (Qfloor_Z (Z.of_nat (List.length s) - 1)).
    apply Qfloor_resp_le. unfold last_index in Hn.
    unfold Zminus. rewrite inject_Z_plus. exact Hn. }
  pose proof (Qfloor_le h) as Hle. pose proof (Qlt_floor h) as Hlt.
  rewrite inject_Z_plus in Hlt. change (inject_Z 1) with 1 in Hlt.
  repeat split; try lia; lra.
Qed.

Lemma interpolate_between (h : Q) :
  0 <= h -> h <= last_index ->
  nth (Z.to_nat (Qfloor h)) s 0 <= interpolate s h
  /\ interpolate s h
     <= nth (Nat.min (S (Z.to_nat (Qfloor h))) (List.length s - 1)) s 0.
Proof.
  intros H0 Hn. destruct (neighbours h H0 Hn) as (_ & Hidx & Hg0 & Hg1).
  unfold interpolate. apply lerp_between; try assumption.
  apply s_sorted. exact Hidx.
Qed.

(** The interpolated value does not decrease with the virtual index. *)
Lemma interpolate_mono (h1 h2 : Q) :
  0 <= h1 -> h1 <= h2 -> h2 <= last_index ->
  interpolate s h1 <= interpolate s h2.
Proof.
  intros H0 H12 Hn.
  assert (H0' : 0 <= h2) by lra. assert (Hn' : h1 <= last_index) by lra.
  pose proof (Qfloor_resp_le _ _ H12) as Hfloor.
  destruct (neighbours h1 H0 Hn') as (Hf1 & Hidx1 & _).
  destruct (neighbours h2 H0' Hn) as (Hf2 & Hidx2 & _).
  destruct (Z.eq_dec (Qfloor h1) (Qfloor h2)) as [Heq | Hne].
  - unfold interpolate. rewrite Heq. apply lerp_mono.
    + apply s_sorted. rewrite <- Heq. exact Hidx1.
    + lra.
  - destruct (interpolate_between h1 H0 Hn') as [_ Hup].
    destruct (interpolate_between h2 H0' Hn) as [Hlow _].
    eapply Qle_trans; [exact Hup |]. eapply Qle_trans; [| exact Hlow].
    apply s_sorted. lia.
Qed.
End Interpolation.

Lemma sorted_nth_In (a : list Q) (i : nat) :
  (i < List.length a)%nat -> In (nth i (QSort.sort a) 0) a.
Proof.
  intros Hi. apply (Permutation_in _ (Permutation_sym (QSort.Permuted_sort a))).
  apply nth_In. rewrite sort_length. exact Hi.
Qed.

(** The virtual index of a percentile lies in the index range. *)
Lemma virtual_index_range (a : list Q) (q : Q) :
  a <> [] -> 0 <= q -> q <= 100 ->
  let n := inject_Z (Z.of_nat (List.length (QSort.sort a))) in
  0 <= (n - 1) * (q / 100) /\ (n - 1) * (q / 100) <= n - 1.
Proof.
  intros Hne H0 H100. cbn zeta.
  assert (Hlen : 1 <= inject_Z (Z.of_nat (List.length (QSort.sort a)))).
  { rewrite sort_length. destruct a; [congruence |].
    change 1 with (inject_Z 1). rewrite <- Zle_Qle. cbn [List.length]. lia. }
  assert (Ha : 0 <= q / 100) by (apply Qle_shift_div_l; lra).
  assert (Hb : q / 100 <= 1) by (apply Qle_shift_div_r; lra).
  revert Ha Hb Hlen.
  generalize (q / 100), (inject_Z (Z.of_nat (List.length (QSort.sort a)))).
  intros u n Ha Hb Hlen. split; nra.
Qed.

(** A higher percentile of the same data is not smaller. *)
Lemma exact_percentile_mono (a : list Q) (q1 q2 : Q) :
  a <> [] -> 0 <= q1 -> q1 <= q2 -> q2 <= 100 ->
  exact_percentile a q1 <= exact_percentile a q2.
Proof.
  intros Hne H0 H12 H100. unfold exact_percentile. cbn zeta.
  assert (Hlen : 1 <= inject_Z (Z.of_nat (List.length (QSort.sort a)))).
  { rewrite sort_length. destruct a; [congruence |].
    change 1 with (inject_Z 1). rewrite <- Zle_Qle. cbn [List.length]. lia. }
  assert (Ha : 0 <= q1 / 100) by (apply Qle_shift_div_l; lra).
  assert (Hab : q1 / 100 <= q2 / 100)
    by (apply Qmult_le_compat_r; [exact H12 | discriminate]).
  assert (Hb : q2 / 100 <= 1) by (apply Qle_shift_div_r; lra).
  apply interpolate_mono; [apply sort_nondecreasing | | |];
    revert Ha Hab Hb Hlen;
    generalize (q1 / 100), (q2 / 100),
      (inject_Z (Z.of_nat (List.length (QSort.sort a))));
    intros u v n Ha Hab Hb Hlen; nra.
Qed.

(** The two order statistics a percentile interpolates are values of the
    column, and the exact percentile lies between them. *)
Lemma percentile_neighbours (a : list Q) (q : Q) :
  a <> [] -> 0 <= q -> q <= 100 ->
  let s := QSort.sort a in
  let h := (inject_Z (Z.of_nat (List.length s)) - 1) * (q / 100) in
  let previous := Z.to_nat (Qfloor h) in
  let next := Nat.min (S previous) (List.length s - 1) in
  In (nth previous s 0) a /\ In (nth next s 0) a
  /\ nth previous s 0 <= exact_percentile a q
  /\ exact_percentile a q <= nth next s 0.
Proof.
  intros Hne H0 H100. cbn zeta.
  destruct (virtual_index_range a q Hne H0 H100) as [Hh0 Hhn].
  destruct (neighbours (QSort.sort a) _ Hh0 Hhn) as (_ & Hidx & _).
  destruct (interpolate_between (QSort.sort a) (sort_nondecreasing a) _ Hh0 Hhn)
    as [Hlow Hup].
  rewrite sort_length in Hidx.
  split; [apply sorted_nth_In; rewrite ?sort_length; lia |].
  split; [apply sorted_nth_In; rewrite ?sort_length; lia |].
  split; [exact Hlow | exact Hup].
Qed.

Lemma exact_percentile_in_range (a : list Q) (q : Q) :
  a <> [] -> 0 <= q -> q <= 100 ->
  exists lo hi,
    In lo a /\ In hi a /\ lo <= exact_percentile a q /\ exact_percentile a q <= hi.
Proof.
  intros Hne H0 H100.
  destruct (percentile_neighbours a q Hne H0 H100) as (Hlo & Hhi & H1 & H2).
  eexists _, _.
  split; [exact Hlo |]. split; [exact Hhi |]. split; [exact H1 | exact H2].
Qed.

Lemma inject_Z_double (k : nat) :
  inject_Z (Z.of_nat (2 * k)) == 2 * inject_Z (Z.of_nat k).
Proof. rewrite Nat2Z.inj_mul, inject_Z_mult. reflexivity. Qed.

Lemma inject_Z_pred (z : Z) : inject_Z (z - 1) == inject_Z z - 1.
Proof.
  unfold Z.sub. rewrite inject_Z_plus, inject_Z_opp. reflexivity.
Qed.

Lemma inject_Z_succ (z : Z) : inject_Z (z + 1) == inject_Z z + 1.
Proof. rewrite inject_Z_plus. reflexivity. Qed.

(** ** The float32 reductions *)

(** An exact result below the threshold is returned as it is. *)
Lemma float32_finite (x : Q) : Qabs x < float32_limit -> float32 x = Finite x.
Proof.
  intros Hx. unfold float32.
  pose proof (Qle_Qabs x) as Hup. pose proof (Qle_Qabs (- x)) as Hdown.
  rewrite Qabs_opp in Hdown.
  destruct (Qle_bool float32_limit x) eqn:H1.
  { apply Qle_bool_iff in H1. lra. }
  destruct (Qle_bool x (- float32_limit)) eqn:H2.
  { apply Qle_bool_iff in H2. lra. }
  reflexivity.
Qed.

Lemma np_lerp_exact (a b t : Q) :
  Qabs (b - a) < float32_limit ->
  exists p, np_lerp a b t = Finite p /\ p == lerp a b t.
Proof.
  intros Hd. unfold np_lerp. rewrite (float32_finite _ Hd).
  destruct (Qle_bool (1 # 2) t); eexists; (split; [reflexivity |]);
    unfold lerp; ring.
Qed.

(** Without overflow, numpy's percentile is the exact one. *)
Lemma quantile_exact (a : list Q) (q : Q) :
  a <> [] -> no_overflow a -> 0 <= q -> q <= 100 ->
  exists p, quantile a q = Finite p /\ p == exact_percentile a q.
Proof.
  intros Hne Hsafe H0 H100.
  destruct (percentile_neighbours a q Hne H0 H100) as (Hlo & Hhi & _).
  unfold quantile, exact_percentile, interpolate. cbn zeta.
  apply np_lerp_exact. apply (Hsafe _ _ Hlo Hhi).
Qed.

(** Without overflow, numpy's median is the exact 50th percentile. *)
Lemma np_median_exact (a : list Q) :
  a <> [] -> no_overflow a ->
  exists m, np_median a = Finite m /\ m == exact_percentile a 50.
Proof.
  intros Hne Hsafe. unfold np_median, exact_percentile.
  destruct a as [| x a']; [congruence |].
  assert (Hin : forall i, (i < List.length (QSort.sort (x :: a')))%nat ->
                          In (nth i (QSort.sort (x :: a')) 0) (x :: a')).
  { intros i Hi. apply sorted_nth_In. rewrite <- sort_length. exact Hi. }
  revert Hin. cbn zeta.
  remember (QSort.sort (x :: a')) as s eqn:Hs.
  assert (Hpos : (0 < List.length s)%nat).
  { rewrite Hs, sort_length. cbn. lia. }
  clear Hs Hne. intros Hin. unfold interpolate, lerp.
  destruct (Nat.even (List.length s)) eqn:Hparity.
  - apply Nat.even_spec in Hparity. destruct Hparity as [k Hk].
    assert (Hfloor : Qfloor ((inject_Z (Z.of_nat (List.length s)) - 1) * (50 / 100))
                     = (Z.of_nat k - 1)%Z).
    { apply Qfloor_unique; rewrite Hk, inject_Z_double;
        [| rewrite inject_Z_succ]; rewrite inject_Z_pred;
        change (50 / 100) with (50 # 100);
        generalize (inject_Z (Z.of_nat k)); intros y; lra. }
    rewrite Hfloor.
    replace (Z.to_nat (Z.of_nat k - 1)) with (k - 1)%nat by lia.
    replace (Nat.min (S (k - 1)) (List.length s - 1)) with k by lia.
    replace (Nat.div (List.length s) 2) with k
      by (rewrite Hk, Nat.mul_comm; symmetry; apply Nat.div_mul; lia).
    rewrite float32_finite.
    + eexists. split; [reflexivity |].
      rewrite Hk, inject_Z_double, inject_Z_pred. field.
    + apply (Hsafe (nth (k - 1) s 0) (nth k s 0)); apply Hin; lia.
  - assert (Hodd : Nat.odd (List.length s) = true).
    { rewrite <- Nat.negb_even, Hparity. reflexivity. }
    apply Nat.odd_spec in Hodd. destruct Hodd as [k Hk].
    eexists. split; [reflexivity |].
    assert (Hh : (inject_Z (Z.of_nat (List.length s)) - 1) * (50 / 100)
                 == inject_Z (Z.of_nat k)).
    { rewrite Hk, Nat2Z.inj_add, inject_Z_plus, inject_Z_double.
      cbn [Z.of_nat inject_Z]. field. }
    rewrite (Qfloor_comp _ _ Hh), Qfloor_Z, Nat2Z.id, Hh.
    replace (Nat.div (List.length s) 2) with k.
    + ring.
    + rewrite Hk. symmetry. rewrite Nat.add_comm, Nat.mul_comm.
      rewrite Nat.div_add by lia. reflexivity.
Qed.

(** The five statistics of a column with data are finite and ordered, as
    long as no sum and no difference of two of its values overflows. *)
Lemma column_bands (a : list Q) :
  a <> [] -> no_overflow a ->
  exists p10 p25 m p75 p90,
    quantile a 10 = Finite p10 /\ quantile a 25 = Finite p25
    /\ np_median a = Finite m
    /\ quantile a 75 = Finite p75 /\ quantile a 90 = Finite p90
    /\ p10 <= p25 /\ p25 <= m /\ m <= p75 /\ p75 <= p90.
Proof.
  intros Hne Hsafe.
  destruct (quantile_exact a 10 Hne Hsafe) as (p10 & H10 & E10); try lra.
  destruct (quantile_exact a 25 Hne Hsafe) as (p25 & H25 & E25); try lra.
  destruct (quantile_exact a 75 Hne Hsafe) as (p75 & H75 & E75); try lra.
  destruct (quantile_exact a 90 Hne Hsafe) as (p90 & H90 & E90); try lra.
  destruct (np_median_exact a Hne Hsafe) as (m & Hm & Em).
  exists p10, p25, m, p75, p90.
  repeat (split; [assumption |]).
  rewrite E10, E25, Em, E75, E90.
  repeat split; apply exact_percentile_mono; try assumption; lra.
Qed.

(** Values that are small neither add nor subtract to an overflow. *)
Lemma small_no_overflow (a : ndarray) (j : nat) :
  small a = true -> no_overflow (column a j).
Proof.
  unfold small, column. intros Hsmall.
  assert (Hbound : forall x, In x (map (fun row => nth j row 0) (rows a)) ->
                             Qabs x <= float32_half).
  { intros x Hx. apply in_map_iff in Hx. destruct Hx as (row & <- & Hrow).
    rewrite forallb_forall in Hsmall. specialize (Hsmall row Hrow).
    destruct (Nat.lt_ge_cases j (List.length row)) as [Hj | Hj].
    - rewrite forallb_forall in Hsmall. apply Qle_bool_iff.
      apply Hsmall, nth_In, Hj.
    - rewrite nth_overflow by exact Hj. discriminate. }
  intros x y Hx Hy. apply Hbound in Hx. apply Hbound in Hy.
  assert (Hroom : float32_half + float32_half < float32_limit) by reflexivity.
  split.
  - eapply Qle_lt_trans; [apply Qabs_triangle |]. lra.
  - eapply Qle_lt_trans; [apply Qabs_triangle |]. rewrite Qabs_opp. lra.
Qed.

Lemma small_within_float32 (a : ndarray) : small a = true -> within_float32 a.
Proof. intros Hsmall j _. apply small_no_overflow, Hsmall. Qed.

(** ** forecast_prices *)

Lemma torch_tensor_cases (prices : list Q) :
  torch_tensor prices = Ok prices \/ torch_tensor prices = Raise OverflowError.
Proof.
  unfold torch_tensor. destruct (forallb _ prices); [left | right]; reflexivity.
Qed.

Lemma torch_tensor_empty : torch_tensor [] = Ok [].
Proof. reflexivity. Qed.

Lemma column_nonempty (a : ndarray) (j : nat) : rows a <> [] -> column a j <> [].
Proof. unfold column. destruct (rows a); [congruence | discriminate]. Qed.

(** On an array with rows, the percentiles along axis 0 are those of the
    columns; on an array without rows, they raise. *)
Lemma np_percentile_rows (a : ndarray) (q : Q) :
  rows a <> [] ->
  np_percentile a q = Ok (along_axis0 (fun c => quantile c q) a).
Proof.
  intros Hrows. unfold np_percentile.
  destruct (rows a); [congruence | reflexivity].
Qed.

Lemma np_percentile_empty (a : ndarray) (q : Q) :
  rows a = [] -> np_percentile a q = Raise IndexError.
Proof. intros Hrows. unfold np_percentile. rewrite Hrows. reflexivity. Qed.

(** Once the cache has returned a handle: the prices are converted, then
    exactly one prediction follows, then the summary. *)
Lemma forecast_prices_after (E : Engine) (prices : list Q) (n k : Z)
    (model_size : string) (w w1 : World) (h : Handle) :
  get_pipeline E model_size w = (Ok (Some h), w1) ->
  forecast_prices E prices n k model_size w
  = match torch_tensor prices with
    | Raise e => (Raise e, w1)
    | Ok _ =>
        (match predict E (draws w1) h prices n k with
         | None => Raise EngineError
         | Some a => summarize a prices n
         end,
         predicted h prices n k w1)
    end.
Proof.
  intros Hget. unfold forecast_prices, bind. rewrite Hget. unfold lift.
  destruct (torch_tensor_cases prices) as [-> | ->]; [| reflexivity].
  cbn [pipeline_predict]. unfold bind, emit. cbn [_pipeline _model_name next_id
    draws trace]. unfold predicted.
  destruct (predict E (draws w1) h prices n k) as [a |]; [| reflexivity].
  unfold summarize. destruct (rows a) as [| row rest] eqn:Hrows.
  - rewrite (np_percentile_empty a 10 Hrows). reflexivity.
  - assert (Hne : rows a <> []) by (rewrite Hrows; discriminate).
    rewrite !(np_percentile_rows a _ Hne). cbn [is_empty].
    destruct (last_item prices); reflexivity.
Qed.

(** Every record that [forecast_prices] returns is the summary of the
    array the engine answered with, which has at least one row. *)
Lemma forecast_prices_inv (E : Engine) (prices : list Q)
    (prediction_length num_samples : Z) (model_size : string)
    (w w' : World) (r : record) :
  forecast_prices E prices prediction_length num_samples model_size w = (Ok r, w') ->
  exists h w1 forecast_np last_price,
    get_pipeline E model_size w = (Ok (Some h), w1)
    /\ predict E (draws w1) h prices prediction_length num_samples
       = Some forecast_np
    /\ last_item prices = Ok last_price
    /\ w' = predicted h prices prediction_length num_samples w1
    /\ rows forecast_np <> []
    /\ r = summary forecast_np last_price prediction_length.
Proof.
  intros Hcall.
  destruct (get_pipeline E model_size w) as [[[h |] | e] w1] eqn:Hget.
  - rewrite (forecast_prices_after _ _ _ _ _ _ _ _ Hget) in Hcall.
    destruct (torch_tensor prices); [| discriminate].
    destruct (predict E (draws w1) h prices prediction_length num_samples)
      as [forecast_np |] eqn:Hpredict; [| discriminate].
    unfold summarize in Hcall.
    destruct (rows forecast_np) as [| row rest] eqn:Hrows; [discriminate |].
    cbn [is_empty] in Hcall.
    destruct (last_item prices) as [last_price | e]; [| discriminate].
    injection Hcall as <- <-.
    exists h, w1, forecast_np, last_price.
    split; [reflexivity |]. split; [exact Hpredict |].
    split; [reflexivity |]. split; [reflexivity |].
    split; [rewrite Hrows; discriminate | reflexivity].
  - unfold forecast_prices, bind in Hcall. rewrite Hget in Hcall. unfold lift in Hcall.
    destruct (torch_tensor prices); discriminate.
  - unfold forecast_prices, bind in Hcall. rewrite Hget in Hcall. discriminate.
Qed.

(** Conversely, the call returns as soon as the cache yields a handle, the
    prices fit a float, the engine answers with at least one sampled path
    and there is a last price. *)
Lemma forecast_prices_run (E : Engine) (prices : list Q)
    (prediction_length num_samples : Z) (model_size : string)
    (w w1 : World) (h : Handle) (forecast_np : ndarray) (last_price : Q) :
  get_pipeline E model_size w = (Ok (Some h), w1) ->
  torch_tensor prices = Ok prices ->
  predict E (draws w1) h prices prediction_length num_samples = Some forecast_np ->
  rows forecast_np <> [] ->
  last_item prices = Ok last_price ->
  forecast_prices E prices prediction_length num_samples model_size w
  = (Ok (summary forecast_np last_price prediction_length),
     predicted h prices prediction_length num_samples w1).
Proof.
  intros Hget Htensor Hpredict Hrows Hlast.
  rewrite (forecast_prices_after _ _ _ _ _ _ _ _ Hget), Htensor, Hpredict.
  unfold summarize. destruct (rows forecast_np); [congruence |].
  cbn [is_empty]. rewrite Hlast. reflexivity.
Qed.

Lemma last_item_nonempty (prices : list Q) :
  prices <> [] -> exists last_price, last_item prices = Ok last_price.
Proof.
  intros Hne. unfold last_item. destruct (rev prices) as [| x l] eqn:Hrev.
  - apply (f_equal (@rev Q)) in Hrev. rewrite rev_involutive in Hrev.
    cbn in Hrev. contradiction.
  - exists x. reflexivity.
Qed.

(** The call returns whenever the load succeeds, the prices fit a float,
    the engine answers with at least one sampled path and there is at
    least one price. *)
Lemma forecast_prices_returns (E : Engine) (prices : list Q)
    (prediction_length num_samples : Z) (model_size : string) (w : World) :
  fresh_ids w ->
  prices <> [] ->
  torch_tensor prices = Ok prices ->
  from_pretrained_ok E (target_model model_size) (torch_device E) = true ->
  (forall d h, exists a,
      predict E d h prices prediction_length num_samples = Some a
      /\ rows a <> []) ->
  exists r w',
    forecast_prices E prices prediction_length num_samples model_size w
    = (Ok r, w').
Proof.
  intros Hfresh Hne Htensor Hok Hanswer.
  destruct (get_pipeline_spec E model_size w Hfresh Hok) as (h & w1 & Hget & _).
  destruct (last_item_nonempty prices Hne) as [last_price Hlast].
  destruct (Hanswer (draws w1) h) as (a & Hpredict & Hrows).
  eexists _, _. eapply forecast_prices_run; eassumption.
Qed.

Lemma tolist1_values (f : list Q -> npfloat) (a : ndarray) :
  (forall j, (j < ncols a)%nat -> exists q, f (column a j) = Finite q) ->
  tolist1 (along_axis0 f a) = PyList (map PyNum (values f a)).
Proof.
  intros Hsome. unfold tolist1, along_axis0, values. f_equal.
  rewrite !map_map. apply map_ext_in. intros j Hj.
  apply in_seq in Hj. destruct (Hsome j) as [q ->]; [lia | reflexivity].
Qed.

Lemma values_length (f : list Q -> npfloat) (a : ndarray) :
  List.length (values f a) = ncols a.
Proof. unfold values. rewrite length_map, length_seq. reflexivity. Qed.

Lemma values_nth (f : list Q -> npfloat) (a : ndarray) (i : nat) :
  (i < ncols a)%nat ->
  nth i (values f a) 0 = finite_or (f (column a i)) 0.
Proof.
  intros Hi. unfold values.
  set (g := fun j => finite_or (f (column a j)) 0).
  rewrite (nth_indep _ 0 (g 0%nat))
    by (rewrite length_map, length_seq; exact Hi).
  rewrite map_nth, seq_nth by exact Hi. reflexivity.
Qed.

Lemma example_run :
  forecast_prices stub_engine example_prices 3 20 "small" initial_world
  = (Ok example_base, example_world).
Proof. reflexivity. Qed.

(** C1, as stated, fails where float32 overflows.  numpy takes the float32
    mean of the two middle values of a column: for two sampled paths at
    3 * 2^126, about 2.55e38, the sum is beyond the largest float32, so the
    median is infinite, above the 75th percentile, which numpy
    interpolates to 3 * 2^126.  And numpy interpolates a percentile from the
    float32 difference of two neighbours: for a path at -3 * 2^126 and one
    at 3 * 2^126 that difference is infinite, which makes the 25th
    percentile plus infinity and the 75th minus infinity, on the wrong
    sides of the median, 0. *)
Lemma bands_out_of_order_on_overflow :
  let peak := inject_Z (3 * 2 ^ 126) in
  let forecaster (paths : list (list Q)) :=
    mkEngine false (fun _ _ => true)
             (fun _ _ _ _ _ => Some (mkArray paths 1)) in
  (exists r w' high_75,
     forecast_prices (forecaster [[peak]; [peak]]) example_prices 1 2 "small"
       initial_world = (Ok r, w')
     /\ field r "median" = Some (PyList [PyInf false])
     /\ field r "high_75" = Some (PyList [PyNum high_75])
     /\ high_75 == peak)
  /\ (exists r w' median,
        forecast_prices (forecaster [[- peak]; [peak]]) example_prices 1 2 "small"
          initial_world = (Ok r, w')
        /\ field r "low_25" = Some (PyList [PyInf false])
        /\ field r "median" = Some (PyList [PyNum median])
        /\ field r "high_75" = Some (PyList [PyInf true])
        /\ median == 0).
Proof.
  cbn zeta. split.
  - eexists _, _, _.
    split; [vm_compute; reflexivity |].
    split; [vm_compute; reflexivity |].
    split; [vm_compute; reflexivity |].
    vm_compute. reflexivity.
  - eexists _, _, _.
    split; [vm_compute; reflexivity |].
    split; [vm_compute; reflexivity |].
    split; [vm_compute; reflexivity |].
    split; [vm_compute; reflexivity |].
    vm_compute. reflexivity.
Qed.

(** C1, amended.  A record [forecast_prices] returns stores the array the
    engine predicted under [samples].  If at no step a sum or a difference
    of two sampled values reaches the overflow threshold of float32, the
    five bands are lists of numbers with one entry per column of that
    array, and at every step
    low_10 <= low_25 <= median <= high_75 <= high_90. *)
Theorem percentile_monotonicity (E : Engine) (prices : list Q)
    (prediction_length num_samples : Z) (model_size : string)
    (w w' : World) (r : record) :
  forecast_prices E prices prediction_length num_samples model_size w = (Ok r, w') ->
  exists (a : ndarray) (h : Handle) (d : nat),
    predict E d h prices prediction_length num_samples = Some a
    /\ field r "samples" = Some (tolist2 a)
    /\ (within_float32 a ->
        exists low_10 low_25 median high_75 high_90 : list Q,
          field r "low_10" = Some (PyList (map PyNum low_10))
          /\ field r "low_25" = Some (PyList (map PyNum low_25))
          /\ field r "median" = Some (PyList (map PyNum median))
          /\ field r "high_75" = Some (PyList (map PyNum high_75))
          /\ field r "high_90" = Some (PyList (map PyNum high_90))
          /\ List.length low_10 = ncols a
          /\ List.length low_25 = ncols a
          /\ List.length median = ncols a
          /\ List.length high_75 = ncols a
          /\ List.length high_90 = ncols a
          /\ forall i, (i < ncols a)%nat ->
               nth i low_10 0 <= nth i low_25 0
               /\ nth i low_25 0 <= nth i median 0
               /\ nth i median 0 <= nth i high_75 0
               /\ nth i high_75 0 <= nth i high_90 0).
Proof.
  intros Hcall.
  destruct (forecast_prices_inv _ _ _ _ _ _ _ _ Hcall)
    as (h & w1 & a & last_price & _ & Hpredict & _ & _ & Hrows & ->).
  exists a, h, (draws w1). split; [exact Hpredict |]. split; [reflexivity |].
  intros Hsafe.
  assert (Hbands : forall j, (j < ncols a)%nat -> exists p10 p25 m p75 p90,
             quantile (column a j) 10 = Finite p10
             /\ quantile (column a j) 25 = Finite p25
             /\ np_median (column a j) = Finite m
             /\ quantile (column a j) 75 = Finite p75
             /\ quantile (column a j) 90 = Finite p90
             /\ p10 <= p25 /\ p25 <= m /\ m <= p75 /\ p75 <= p90).
  { intros j Hj. apply column_bands; [apply column_nonempty, Hrows |].
    apply Hsafe, Hj. }
  exists (values (fun c => quantile c 10) a),
         (values (fun c => quantile c 25) a),
         (values np_median a),
         (values (fun c => quantile c 75) a),
         (values (fun c => quantile c 90) a).
  rewrite !values_length.
  repeat match goal with
         | |- field _ _ = _ /\ _ =>
             split;
             [ cbn; f_equal; apply tolist1_values; intros j Hj;
               destruct (Hbands j Hj)
                 as (p10 & p25 & m & p75 & p90 & H10 & H25 & Hm & H75 & H90 & _);
               eexists; eassumption |]
         end.
  repeat (split; [reflexivity |]).
  intros i Hi. rewrite !values_nth by exact Hi.
  destruct (Hbands i Hi)
    as (p10 & p25 & m & p75 & p90 & -> & -> & -> & -> & -> & Hle).
  exact Hle.
Qed.

Lemma percentile_monotonicity_witness :
  exists low_10 low_25 median high_75 high_90 : list Q,
    field example_base "low_10" = Some (PyList (map PyNum low_10))
    /\ field example_base "low_25" = Some (PyList (map PyNum low_25))
    /\ field example_base "median" = Some (PyList (map PyNum median))
    /\ field example_base "high_75" = Some (PyList (map PyNum high_75))
    /\ field example_base "high_90" = Some (PyList (map PyNum high_90))
    /\ List.length low_10 = 3%nat
    /\ List.length low_25 = 3%nat
    /\ List.length median = 3%nat
    /\ List.length high_75 = 3%nat
    /\ List.length high_90 = 3%nat
    /\ forall i, (i < 3)%nat ->
         nth i low_10 0 <= nth i low_25 0
         /\ nth i low_25 0 <= nth i median 0
         /\ nth i median 0 <= nth i high_75 0
         /\ nth i high_75 0 <= nth i high_90 0.
Proof.
  destruct (percentile_monotonicity stub_engine example_prices 3 20 "small"
              initial_world example_world example_base example_run)
    as (a & h & d & Hpredict & _ & Hbands).
  injection Hpredict as <-.
  exact (Hbands (small_within_float32 stub_samples eq_refl)).
Defined.

(** ** Records *)

Lemma atom_eqb_str (s t : string) : atom_eqb (AStr s) (AStr t) = String.eqb s t.
Proof. reflexivity. Qed.

Lemma field_with_field (r : record) (key : string) (v : pyval) :
  field (with_field r key v) key = Some v.
Proof.
  unfold field, with_field. induction r as [| [k x] r IH]; cbn.
  - rewrite String.eqb_refl. reflexivity.
  - destruct (atom_eqb k (AStr key)) eqn:Hk; cbn; rewrite Hk.
    + reflexivity.
    + exact IH.
Qed.

(** A key that is not in the record is appended by [{**r, key: v}]. *)
Lemma with_field_new (r : record) (key : string) (v : pyval) :
  field r key = None -> with_field r key v = (r ++ [(AStr key, v)])%list.
Proof.
  unfold field, with_field. induction r as [| [k x] r IH]; cbn.
  - reflexivity.
  - destruct (atom_eqb k (AStr key)); [discriminate |].
    intros Hnone. rewrite (IH Hnone). reflexivity.
Qed.

(** The base forecast carries neither of the two event fields. *)
Lemma summary_event_fields (a : ndarray) (last_price : Q) (n : Z) :
  field (summary a last_price n) "event_context" = None
  /\ field (summary a last_price n) "event_analysis" = None.
Proof. split; reflexivity. Qed.

Lemma forecast_prices_event_fields (E : Engine) (prices : list Q)
    (prediction_length num_samples : Z) (model_size : string)
    (w w' : World) (r : record) :
  forecast_prices E prices prediction_length num_samples model_size w = (Ok r, w') ->
  field r "event_context" = None /\ field r "event_analysis" = None.
Proof.
  intros Hcall.
  destruct (forecast_prices_inv _ _ _ _ _ _ _ _ Hcall)
    as (h & w1 & a & last_price & _ & _ & _ & _ & _ & ->).
  apply summary_event_fields.
Qed.

(** ** Empty input *)

(** C2, as stated, fails: [forecast_prices] has no emptiness check.  On an
    empty price list, from a fresh process, it loads a model and calls
    [predict] before [prices[-1]] raises [IndexError]. *)
Lemma forecast_prices_empty_reaches_forecaster :
  let w' :=
    predicted (mkHandle 0 "amazon/chronos-bolt-small" "cpu") [] 7 20
      (loaded stub_engine "amazon/chronos-bolt-small" initial_world) in
  forecast_prices stub_engine [] 7 20 "small" initial_world
  = (Raise IndexError, w')
  /\ load_count initial_world = 0%nat /\ load_count w' = 1%nat
  /\ predict_count initial_world = 0%nat /\ predict_count w' = 1%nat.
Proof. repeat split. Qed.

(** C2, amended. [main] rejects a missing or empty price list at its
    boundary: it prints the error document, exits with status 1, and leaves
    the cache and the engine untouched: no load and no prediction appear in
    the trace. *)
Theorem empty_input_rejected (E : Engine) (args : Args) (data : Data) (w : World) :
  or_default (data_prices data) [] = [] ->
  exists w',
    main E args data w = (Raise (SystemExit 1), w')
    /\ trace w'
       = (trace w
          ++ [StdoutJson (PyDict [(AStr "error", PyStr "No prices provided")])])%list
    /\ load_count w' = load_count w
    /\ predict_count w' = predict_count w
    /\ _pipeline w' = _pipeline w
    /\ _model_name w' = _model_name w.
Proof.
  intros Hempty. unfold main. rewrite Hempty. cbn.
  eexists. split; [reflexivity |]. cbn.
  unfold load_count, predict_count. cbn.
  rewrite !filter_app. cbn. rewrite !app_nil_r. repeat split.
Qed.

Lemma empty_input_rejected_witness :
  exists w',
    main stub_engine (mkArgs forecast "small" 7) (mkData (Some []) None None)
         initial_world
    = (Raise (SystemExit 1), w')
    /\ load_count w' = 0%nat /\ predict_count w' = 0%nat.
Proof.
  destruct (empty_input_rejected stub_engine (mkArgs forecast "small" 7)
              (mkData (Some []) None None) initial_world eq_refl)
    as (w' & Hmain & _ & Hload & Hpredict & _).
  exists w'. split; [exact Hmain |]. split; [exact Hload | exact Hpredict].
Defined.

(** ** Mode composition *)

(** The branch taken when there are no events. *)
Lemma no_events_run (E : Engine) (prices : list Q) (n : Z)
    (model_size : string) (w w' : World) (base : record) :
  forecast_prices E prices n 20 model_size w = (Ok base, w') ->
  forecast_with_events E prices [] n model_size w
  = (Ok (base ++ [(AStr "event_context", PyNone)])%list, w').
Proof.
  intros Hbase. unfold forecast_with_events, bind. rewrite Hbase. cbn.
  unfold ret. rewrite with_field_new; [reflexivity |].
  apply (forecast_prices_event_fields _ _ _ _ _ _ _ _ Hbase).
Qed.

(** C8. With no events, [forecast_with_events] is the base forecast made
    with 20 samples: same effects, same failure if the base forecast
    fails, and otherwise the base record with the one extra key
    [event_context], holding [None], appended. *)
Theorem mode_composition (E : Engine) (prices : list Q) (n : Z)
    (model_size : string) (w : World) :
  forecast_with_events E prices [] n model_size w
  = match forecast_prices E prices n 20 model_size w with
    | (Ok base, w') => (Ok (base ++ [(AStr "event_context", PyNone)])%list, w')
    | (Raise e, w') => (Raise e, w')
    end.
Proof.
  destruct (forecast_prices E prices n 20 model_size w) as [[base | e] w'] eqn:Hbase.
  - apply no_events_run, Hbase.
  - unfold forecast_with_events, bind. rewrite Hbase. reflexivity.
Qed.

(** ** The event analysis *)

Lemma py_truediv_in_range (x : Q) :
  0 <= x -> x / 10 < float64_limit -> py_truediv x 10 = Ok (x / 10).
Proof.
  intros H0 Hx. unfold py_truediv.
  destruct (Qle_bool float64_limit (Qabs (x / 10))) eqn:Hle; [| reflexivity].
  apply Qle_bool_iff in Hle.
  assert (Hpos : 0 <= x / 10) by (apply Qle_shift_div_l; lra).
  rewrite (Qabs_pos _ Hpos) in Hle. lra.
Qed.

Lemma event_analysis_numeric (e : EventRecord) (strength : Q) :
  event_get_or e "strength" (ANum 0) = ANum strength ->
  Qabs strength / 10 < float64_limit ->
  event_analysis e = Ok (PyDict (analysis_of e strength)).
Proof.
  intros Hs Hrange. unfold event_analysis, analysis_of. rewrite Hs.
  cbn [py_abs as_number and_then].
  rewrite (py_truediv_in_range _ (Qabs_nonneg strength) Hrange). reflexivity.
Qed.

Lemma strength_fits_spec (e : EventRecord) :
  strength_fits e = true ->
  exists strength,
    event_get_or e "strength" (ANum 0) = ANum strength
    /\ Qabs strength / 10 < float64_limit.
Proof.
  unfold strength_fits.
  destruct (event_get_or e "strength" (ANum 0)) as [| strength | s];
    try discriminate.
  intros Hfits. exists strength. split; [reflexivity |].
  apply Qnot_le_lt. intros Hle. apply Qle_bool_iff in Hle.
  rewrite Hle in Hfits. discriminate.
Qed.

Lemma post_event_run (E : Engine) (prices : list Q) (e : EventRecord) (n : Z)
    (model_size : string) (w w' : World) (base : record) (analysis : pyval) :
  e <> [] ->
  forecast_prices E prices n 20 model_size w = (Ok base, w') ->
  event_analysis e = Ok analysis ->
  forecast_post_event E prices (Some e) n model_size w
  = (Ok (base ++ [(AStr "event_analysis", analysis)])%list, w').
Proof.
  intros Hne Hbase Han. unfold forecast_post_event, bind. rewrite Hbase.
  destruct e as [| p e]; [congruence |]. cbn [is_empty].
  unfold lift. rewrite Han. unfold ret. rewrite with_field_new; [reflexivity |].
  apply (forecast_prices_event_fields _ _ _ _ _ _ _ _ Hbase).
Qed.

Lemma py_min_Qmin (x y : Q) : py_min x y == Qmin x y.
Proof.
  unfold py_min. destruct (Qle_bool x y) eqn:Hle.
  - apply Qle_bool_iff in Hle. symmetry. apply Q.min_l. exact Hle.
  - symmetry. apply Q.min_r. destruct (Qlt_le_dec y x) as [Hlt | Hge].
    + apply Qlt_le_weak. exact Hlt.
    + apply Qle_bool_iff in Hge. congruence.
Qed.

Lemma confidence_range (strength : Q) :
  0 <= py_min (Qabs strength / 10) 1 /\ py_min (Qabs strength / 10) 1 <= 1.
Proof.
  pose proof (Qabs_nonneg strength) as Habs.
  assert (H0 : 0 <= Qabs strength / 10) by (apply Qle_shift_div_l; lra).
  unfold py_min. destruct (Qle_bool (Qabs strength / 10) 1) eqn:Hle.
  - apply Qle_bool_iff in Hle. split; assumption.
  - split; lra.
Qed.

(** C7, as stated, fails on two records.  An integer strength of 10^400
    is a strength value, but its tenth is too large for a float:
    [abs(strength) / 10] raises [OverflowError] and no confidence is
    returned.  For the empty record no analysis, hence no confidence, is
    returned either. *)
Lemma confidence_undefined :
  forecast_post_event stub_engine example_prices
    (Some [("strength", ANum (inject_Z (10 ^ 400)))]) 3 "small" initial_world
  = (Raise OverflowError, example_world)
  /\ forecast_post_event stub_engine example_prices (Some []) 3 "small"
       initial_world
     = (Ok example_base, example_world)
  /\ field example_base "event_analysis" = None.
Proof.
  split; [vm_compute; reflexivity |]. split; reflexivity.
Qed.

(** C7, amended.  For an event record with at least one key, whose
    strength (0 standing for an absent strength) is a number with
    |strength| / 10 below the overflow threshold of a float,
    [forecast_post_event] returns the base forecast with an analysis whose
    confidence is min(|strength| / 10, 1), a number between 0 and 1. *)
Theorem confidence_clamp (E : Engine) (prices : list Q) (e : EventRecord)
    (strength : Q) (n : Z) (model_size : string) (w w' : World) (base : record) :
  e <> [] ->
  event_get_or e "strength" (ANum 0) = ANum strength ->
  Qabs strength / 10 < float64_limit ->
  forecast_prices E prices n 20 model_size w = (Ok base, w') ->
  exists r analysis confidence,
    forecast_post_event E prices (Some e) n model_size w = (Ok r, w')
    /\ field r "event_analysis" = Some (PyDict analysis)
    /\ lookup atom_eqb analysis (AStr "confidence") = Some (PyNum confidence)
    /\ confidence == Qmin (Qabs strength / 10) 1
    /\ 0 <= confidence /\ confidence <= 1.
Proof.
  intros Hne Hget Hrange Hbase.
  pose proof (post_event_run E prices e n model_size w w' base _ Hne Hbase
                (event_analysis_numeric e strength Hget Hrange)) as Hrun.
  eexists _, (analysis_of e strength), _. split; [exact Hrun |].
  split.
  { rewrite <- (with_field_new base "event_analysis").
    - apply field_with_field.
    - apply (forecast_prices_event_fields _ _ _ _ _ _ _ _ Hbase). }
  split; [reflexivity |]. split; [apply py_min_Qmin |].
  apply confidence_range.
Qed.

Lemma confidence_clamp_witness :
  (exists r analysis confidence,
     forecast_post_event stub_engine example_prices
       (Some [("strength", ANum 50); ("classification", AStr "x")]) 3 "small"
       initial_world = (Ok r, example_world)
     /\ field r "event_analysis" = Some (PyDict analysis)
     /\ lookup atom_eqb analysis (AStr "confidence") = Some (PyNum confidence)
     /\ confidence == 1)
  /\ (exists r analysis confidence,
        forecast_post_event stub_engine example_prices
          (Some [("strength", ANum 3)]) 3 "small" initial_world
        = (Ok r, example_world)
        /\ field r "event_analysis" = Some (PyDict analysis)
        /\ lookup atom_eqb analysis (AStr "confidence") = Some (PyNum confidence)
        /\ confidence == 3 # 10).
Proof.
  split.
  - assert (Hne : [("strength", ANum 50); ("classification", AStr "x")]
                  <> ([] : EventRecord)) by discriminate.
    assert (Hrange : Qabs 50 / 10 < float64_limit) by reflexivity.
    destruct (confidence_clamp stub_engine example_prices
                [("strength", ANum 50); ("classification", AStr "x")] 50 3 "small"
                initial_world example_world example_base Hne eq_refl Hrange
                example_run)
      as (r & analysis & c & Hrun & Hfield & Hc & Heq & _).
    exists r, analysis, c. repeat split; assumption.
  - assert (Hne : [("strength", ANum 3)] <> ([] : EventRecord)) by discriminate.
    assert (Hrange : Qabs 3 / 10 < float64_limit) by reflexivity.
    destruct (confidence_clamp stub_engine example_prices
                [("strength", ANum 3)] 3 3 "small"
                initial_world example_world example_base Hne eq_refl Hrange
                example_run)
      as (r & analysis & c & Hrun & Hfield & Hc & Heq & _).
    exists r, analysis, c. repeat split; assumption.
Defined.

(** The continuation coefficient: the entry of the table for a
    classification that is one of its keys, 0 for any other value. *)
Lemma continuation_in_table (classification : atom) (coefficient : Q) :
  In (classification, coefficient) continuation_factors ->
  get_default atom_eqb continuation_factors classification 0 = coefficient.
Proof.
  cbn. intros H.
  repeat destruct H as [H | H]; try contradiction;
    injection H as <- <-; reflexivity.
Qed.

Lemma continuation_not_in_table (classification : atom) :
  (forall coefficient, ~ In (classification, coefficient) continuation_factors) ->
  get_default atom_eqb continuation_factors classification 0 = 0.
Proof.
  intros Hnot. destruct classification as [| q | s]; try reflexivity.
  unfold get_default, continuation_factors, lookup. rewrite !atom_eqb_str.
  repeat match goal with
         | |- context [String.eqb ?k s] =>
             destruct (String.eqb_spec k s) as [Heq | _];
             [exfalso; eapply Hnot; rewrite <- Heq; cbn; eauto 6 |]
         end.
  reflexivity.
Qed.

(** C9, as stated, fails on two records that are not null.  The empty
    record has every combination of fields absent, yet
    [forecast_post_event] returns the bare base forecast, with no
    analysis.  A record whose strength is the integer 10^400 makes
    [abs(strength) / 10] raise [OverflowError]. *)
Lemma post_event_not_total :
  forecast_post_event stub_engine example_prices (Some []) 3 "small" initial_world
  = (Ok example_base, example_world)
  /\ field example_base "event_analysis" = None
  /\ forecast_post_event stub_engine example_prices
       (Some [("classification", AStr "surprising_positive");
              ("strength", ANum (inject_Z (10 ^ 400)))]) 3 "small" initial_world
     = (Raise OverflowError, example_world).
Proof.
  split; [reflexivity |]. split; [reflexivity |]. vm_compute. reflexivity.
Qed.

(** C9, amended. For every event record with at least one key whose
    strength, 0 when the key is absent, is a number with |strength| / 10
    below the overflow threshold of a float, and whatever the combination
    of present and absent classification, strength and residual return,
    [forecast_post_event] returns, without raising, the base forecast
    extended with an analysis.  An absent classification is reported as
    "unknown"; the expected continuation is the table entry of the
    classification when it has one and 0 otherwise. *)
Theorem post_event_total (E : Engine) (prices : list Q) (e : EventRecord)
    (n : Z) (model_size : string) (w w' : World) (base : record) :
  e <> [] ->
  strength_fits e = true ->
  forecast_prices E prices n 20 model_size w = (Ok base, w') ->
  exists strength,
    let classification := event_get_or e "classification" (AStr "unknown") in
    let continuation := get_default atom_eqb continuation_factors classification 0 in
    event_get_or e "strength" (ANum 0) = ANum strength
    /\ forecast_post_event E prices (Some e) n model_size w
       = (Ok (base ++ [(AStr "event_analysis", PyDict (analysis_of e strength))])%list,
          w')
    /\ lookup atom_eqb (analysis_of e strength) (AStr "expected_continuation")
       = Some (PyNum continuation)
    /\ (forall coefficient,
          In (classification, coefficient) continuation_factors ->
          continuation = coefficient)
    /\ ((forall coefficient,
           ~ In (classification, coefficient) continuation_factors) ->
        continuation = 0)
    /\ (absent e "classification" ->
        classification = AStr "unknown" /\ continuation = 0)
    /\ (absent e "strength" -> strength = 0).
Proof.
  intros Hne Hfits Hbase.
  destruct (strength_fits_spec e Hfits) as (strength & Hs & Hrange).
  exists strength. cbn zeta. split; [exact Hs |]. split.
  { apply post_event_run; try assumption.
    apply event_analysis_numeric; assumption. }
  split; [reflexivity |]. split; [apply continuation_in_table |].
  split; [apply continuation_not_in_table |]. split.
  - unfold absent, event_get_or, get_default. intros ->. split; reflexivity.
  - unfold absent, event_get_or, get_default in *. intros Habs.
    rewrite Habs in Hs. injection Hs as <-. reflexivity.
Qed.

Lemma post_event_total_witness :
  exists strength,
    forecast_post_event stub_engine example_prices
      (Some [("date", AStr "2024-05-02")]) 3 "small" initial_world
    = (Ok (example_base
           ++ [(AStr "event_analysis",
                PyDict (analysis_of [("date", AStr "2024-05-02")] strength))])%list,
       example_world)
    /\ strength = 0
    /\ lookup atom_eqb (analysis_of [("date", AStr "2024-05-02")] strength)
         (AStr "expected_continuation")
       = Some (PyNum 0).
Proof.
  assert (Hne : [("date", AStr "2024-05-02")] <> ([] : EventRecord))
    by discriminate.
  destruct (post_event_total stub_engine example_prices
              [("date", AStr "2024-05-02")] 3 "small" initial_world example_world
              example_base Hne eq_refl example_run)
    as (strength & _ & Hrun & Hcont & _ & _ & _ & Hstrength).
  exists strength. split; [exact Hrun |]. split.
  - apply Hstrength. reflexivity.
  - exact Hcont.
Defined.

(** ** Presence of the analysis *)



(** ** The event statistics *)


Lemma event_get_absent (e : EventRecord) (key : string) :
  lookup String.eqb e key = None -> event_get e key = ANone.
Proof. intros H. unfold event_get, get_default. rewrite H. reflexivity. Qed.


Lemma event_returns_cons (e : EventRecord) (events : list EventRecord) :
  event_returns (e :: events)
  = if truthy (event_get e "residual_return")
    then event_get_or e "residual_return" (ANum 0) :: event_returns events
    else event_returns events.
Proof.
  unfold event_returns. cbn [filter].
  destruct (truthy (event_get e "residual_return")); reflexivity.
Qed.






Lemma event_statistics_eq (events : list EventRecord) :
  event_statistics events
  = (avg_event_return <-?
       (if is_empty (event_returns events) then Ok 0
        else np_mean (event_returns events)) ;;
     avg_event_strength <-?
       (if is_empty (event_strengths events) then Ok 0
        else np_mean (event_strengths events)) ;;
     positive_events <-? count_if gt_zero (event_returns events) ;;
     negative_events <-? count_if lt_zero (event_returns events) ;;
     Ok (PyDict (context_of events avg_event_return avg_event_strength
                   positive_events negative_events))).
Proof. reflexivity. Qed.


Lemma with_events_run (E : Engine) (prices : list Q) (events : list EventRecord)
    (n : Z) (model_size : string) (w w' : World) (base : record)
    (context : pyval) :
  events <> [] ->
  forecast_prices E prices n 20 model_size w = (Ok base, w') ->
  event_statistics events = Ok context ->
  forecast_with_events E prices events n model_size w
  = (Ok (base ++ [(AStr "event_context", context)])%list, w').
Proof.
  intros Hne Hbase Hctx. unfold forecast_with_events, bind. rewrite Hbase.
  destruct events as [| e events]; [congruence |]. cbn [is_empty].
  unfold lift. rewrite Hctx. unfold ret. rewrite with_field_new; [reflexivity |].
  apply (forecast_prices_event_fields _ _ _ _ _ _ _ _ Hbase).
Qed.




(** ** Events without fields *)

Lemma event_returns_absent (events : list EventRecord) :
  Forall all_absent events -> event_returns events = [].
Proof.
  induction 1 as [| e events (_ & _ & Hr) _ IH]; [reflexivity |].
  rewrite event_returns_cons, (event_get_absent e _ Hr). exact IH.
Qed.

Lemma event_strengths_absent (events : list EventRecord) :
  Forall all_absent events -> event_strengths events = [].
Proof.
  unfold event_strengths.
  induction 1 as [| e events (_ & Hs & _) _ IH]; [reflexivity |].
  cbn [filter]. rewrite (event_get_absent e _ Hs). exact IH.
Qed.

(** Counting unlabeled events adds them to the entry of "unknown". *)
Lemma count_type_absent (e : EventRecord) :
  absent e "classification" ->
  count_type [] e = [(AStr "unknown", 1%Z)]
  /\ forall k, count_type [(AStr "unknown", k)] e = [(AStr "unknown", (k + 1)%Z)].
Proof.
  unfold absent, count_type, event_get_or, get_default. intros ->.
  split; reflexivity.
Qed.

Lemma count_unknown (events : list EventRecord) (k : Z) :
  Forall all_absent events ->
  fold_left count_type events [(AStr "unknown", k)]
  = [(AStr "unknown", (k + Z.of_nat (List.length events))%Z)].
Proof.
  intros Hall. revert k.
  induction Hall as [| e events (Hc & _ & _) _ IH]; intros k.
  - cbn. rewrite Z.add_0_r. reflexivity.
  - cbn [fold_left List.length].
    destruct (count_type_absent e Hc) as [_ ->]. rewrite IH.
    do 2 f_equal. lia.
Qed.

Lemma count_types_absent (events : list EventRecord) :
  events <> [] -> Forall all_absent events ->
  count_types events = [(AStr "unknown", Z.of_nat (List.length events))].
Proof.
  intros Hne Hall. destruct Hall as [| e events (Hc & _ & _) Hall]; [congruence |].
  unfold count_types. cbn [fold_left].
  destruct (count_type_absent e Hc) as [-> _].
  rewrite (count_unknown events _ Hall). cbn [List.length]. do 2 f_equal. lia.
Qed.

(** C6. With no events the context is [None].  With a non-empty list of
    events that have none of the three fields, the context counts the
    events, has both means and the bias equal to 0, no positive and no
    negative event, and one classification, "unknown", counted once per
    event. *)
Theorem aggregation_emptiness (E : Engine) (prices : list Q)
    (events : list EventRecord) (n : Z) (model_size : string)
    (w w' : World) (base : record) :
  forecast_prices E prices n 20 model_size w = (Ok base, w') ->
  (events = [] ->
   forecast_with_events E prices events n model_size w
   = (Ok (base ++ [(AStr "event_context", PyNone)])%list, w'))
  /\ (events <> [] -> Forall all_absent events ->
      forecast_with_events E prices events n model_size w
      = (Ok (base ++ [(AStr "event_context",
                       PyDict (empty_context (List.length events)))])%list, w')).
Proof.
  intros Hbase. split.
  - intros ->. apply no_events_run, Hbase.
  - intros Hne Hall. apply with_events_run; try assumption.
    rewrite event_statistics_eq.
    unfold context_of. rewrite (count_types_absent events Hne Hall).
    rewrite (event_returns_absent events Hall),
      (event_strengths_absent events Hall).
    reflexivity.
Qed.

Lemma aggregation_emptiness_witness :
  forecast_with_events stub_engine example_prices [] 3 "small" initial_world
  = (Ok (example_base ++ [(AStr "event_context", PyNone)])%list, example_world)
  /\ forecast_with_events stub_engine example_prices [[]; [("date", AStr "d")]] 3
       "small" initial_world
     = (Ok (example_base
            ++ [(AStr "event_context", PyDict (empty_context 2))])%list,
        example_world).
Proof.
  split.
  - apply (aggregation_emptiness stub_engine example_prices [] 3 "small"
             initial_world example_world example_base example_run).
    reflexivity.
  - apply (aggregation_emptiness stub_engine example_prices
             [[]; [("date", AStr "d")]] 3 "small"
             initial_world example_world example_base example_run).
    + discriminate.
    + repeat constructor.
Defined.

(** * Further properties of the program *)

(** ** Outcomes of get_pipeline *)

Lemma get_pipeline_miss_raises (E : Engine) (model_size : string) (w : World) :
  _pipeline w = None \/ _model_name w <> Some (target_model model_size) ->
  from_pretrained_ok E (target_model model_size) (torch_device E) = false ->
  get_pipeline E model_size w
  = (Raise EngineError, attempted E (target_model model_size) w).
Proof.
  intros Hmiss Hok. unfold get_pipeline, bind, globals, ret.
  rewrite (miss_condition _ _ Hmiss).
  unfold emit, from_pretrained, bind, emit, set_cache. cbn.
  rewrite Hok. unfold attempted, loading_line. rewrite <- app_assoc. reflexivity.
Qed.

(** The three ways a call can end: the cached handle, a new handle, or
    the engine's refusal. *)
Lemma get_pipeline_cases (E : Engine) (model_size : string) (w : World) :
  let name := target_model model_size in
  (exists h, _pipeline w = Some h /\ _model_name w = Some name
             /\ get_pipeline E model_size w = (Ok (Some h), w))
  \/ ((_pipeline w = None \/ _model_name w <> Some name)
      /\ get_pipeline E model_size w
         = (Ok (Some (mkHandle (next_id w) name (torch_device E))),
            loaded E name w))
  \/ ((_pipeline w = None \/ _model_name w <> Some name)
      /\ from_pretrained_ok E name (torch_device E) = false
      /\ get_pipeline E model_size w = (Raise EngineError, attempted E name w)).
Proof.
  cbn zeta.
  destruct (cached_dec w (target_model model_size)) as [[[h Hp] Hn] | Hmiss].
  - left. exists h. repeat split; try assumption.
    apply get_pipeline_hit; assumption.
  - right.
    destruct (from_pretrained_ok E (target_model model_size) (torch_device E))
      eqn:Hok.
    + left. split; [exact Hmiss |].
      rewrite (get_pipeline_miss E model_size w Hmiss Hok). reflexivity.
    + right. split; [exact Hmiss |]. split; [reflexivity |].
      apply get_pipeline_miss_raises; assumption.
Qed.

Lemma load_count_attempted (E : Engine) (name : string) (w : World) :
  load_count (attempted E name w) = S (load_count w).
Proof.
  unfold load_count, attempted. cbn [trace].
  rewrite !filter_app, !length_app. cbn. lia.
Qed.

(** X1. When the engine refuses the load, [get_pipeline] raises its error
    and the cache keeps what it held: the load is attempted once, and the
    same call made again attempts it again. *)
Theorem failed_load_keeps_cache (E : Engine) (model_size : string)
    (w w1 w2 : World) (r1 r2 : result (option Handle)) :
  _pipeline w = None \/ _model_name w <> Some (target_model model_size) ->
  from_pretrained_ok E (target_model model_size) (torch_device E) = false ->
  get_pipeline E model_size w = (r1, w1) ->
  get_pipeline E model_size w1 = (r2, w2) ->
  r1 = Raise EngineError
  /\ _pipeline w1 = _pipeline w /\ _model_name w1 = _model_name w
  /\ next_id w1 = next_id w
  /\ load_count w1 = S (load_count w)
  /\ r2 = Raise EngineError
  /\ load_count w2 = S (S (load_count w)).
Proof.
  intros Hmiss Hok Hcall1 Hcall2.
  rewrite (get_pipeline_miss_raises E model_size w Hmiss Hok) in Hcall1.
  injection Hcall1 as <- <-.
  assert (Hmiss' : _pipeline (attempted E (target_model model_size) w) = None
                   \/ _model_name (attempted E (target_model model_size) w)
                      <> Some (target_model model_size)) by exact Hmiss.
  rewrite (get_pipeline_miss_raises E model_size _ Hmiss' Hok) in Hcall2.
  injection Hcall2 as <- <-.
  repeat split. 
  - apply load_count_attempted.
  - rewrite !load_count_attempted. reflexivity.
Qed.

Lemma failed_load_keeps_cache_witness :
  exists w1 w2,
    get_pipeline offline_engine "large" initial_world = (Raise EngineError, w1)
    /\ get_pipeline offline_engine "large" w1 = (Raise EngineError, w2)
    /\ _pipeline w1 = None /\ load_count w1 = 1%nat /\ load_count w2 = 2%nat.
Proof.
  exists (attempted offline_engine "amazon/chronos-t5-large" initial_world).
  exists (attempted offline_engine "amazon/chronos-t5-large"
            (attempted offline_engine "amazon/chronos-t5-large" initial_world)).
  destruct (failed_load_keeps_cache offline_engine "large" initial_world
              (attempted offline_engine "amazon/chronos-t5-large" initial_world)
              (attempted offline_engine "amazon/chronos-t5-large"
                 (attempted offline_engine "amazon/chronos-t5-large" initial_world))
              (Raise EngineError) (Raise EngineError)
              (or_introl eq_refl) eq_refl eq_refl eq_refl)
    as (_ & Hp & _ & _ & Hl1 & _ & Hl2).
  repeat split; assumption.
Defined.

(** X2. In every outcome [get_pipeline] keeps the cache coherent and the
    identities fresh, it never returns [None], and the handle it returns
    was built from the identifier the size resolves to. *)
Theorem get_pipeline_invariant (E : Engine) (model_size : string)
    (w w' : World) (r : result (option Handle)) :
  coherent w -> fresh_ids w ->
  get_pipeline E model_size w = (r, w') ->
  coherent w' /\ fresh_ids w'
  /\ r <> Ok None
  /\ (forall h, r = Ok (Some h) ->
       handle_model h = target_model model_size
       /\ _pipeline w' = Some h
       /\ _model_name w' = Some (target_model model_size)).
Proof.
  intros Hco Hfresh Hcall.
  destruct (get_pipeline_cases E model_size w)
    as [(h & Hp & Hn & Heq) | [(Hmiss & Heq) | (Hmiss & Hok & Heq)]];
    rewrite Heq in Hcall; injection Hcall as <- <-.
  - split; [exact Hco |]. split; [exact Hfresh |]. split; [discriminate |].
    intros h' Hh. injection Hh as <-. unfold coherent in Hco.
    rewrite Hp, Hn in Hco. injection Hco as Hco. repeat split; auto.
  - split; [reflexivity |]. split; [apply fresh_ids_loaded |].
    split; [discriminate |]. intros h' Hh. injection Hh as <-.
    repeat split.
  - split; [exact Hco |]. split; [exact Hfresh |]. split; [discriminate |].
    intros h' Hh. discriminate Hh.
Qed.

Lemma get_pipeline_invariant_witness :
  exists h w',
    get_pipeline stub_engine "mini" initial_world = (Ok (Some h), w')
    /\ coherent w' /\ fresh_ids w'
    /\ handle_model h = "amazon/chronos-t5-mini".
Proof.
  exists (mkHandle 0 "amazon/chronos-t5-mini" "cpu").
  exists (loaded stub_engine "amazon/chronos-t5-mini" initial_world).
  destruct (get_pipeline_invariant stub_engine "mini" initial_world
              (loaded stub_engine "amazon/chronos-t5-mini" initial_world)
              (Ok (Some (mkHandle 0 "amazon/chronos-t5-mini" "cpu")))
              eq_refl I eq_refl)
    as (Hco & Hfresh & _ & Hh).
  split; [reflexivity |]. split; [exact Hco |]. split; [exact Hfresh |].
  apply (Hh _ eq_refl).
Defined.

(** ** Effects of forecast_prices *)

Ltac count_trace :=
  unfold load_count, predict_count, stdout_count, loaded, attempted, predicted;
  cbn [trace]; rewrite ?filter_app, ?length_app; cbn; lia.

Lemma counts_loaded (E : Engine) (name : string) (w : World) :
  load_count (loaded E name w) = S (load_count w)
  /\ predict_count (loaded E name w) = predict_count w
  /\ stdout_count (loaded E name w) = stdout_count w.
Proof. repeat split; count_trace. Qed.

Lemma counts_attempted (E : Engine) (name : string) (w : World) :
  load_count (attempted E name w) = S (load_count w)
  /\ predict_count (attempted E name w) = predict_count w
  /\ stdout_count (attempted E name w) = stdout_count w.
Proof. repeat split; count_trace. Qed.

Lemma counts_predicted (h : Handle) (context : list Q) (n k : Z) (w : World) :
  load_count (predicted h context n k w) = load_count w
  /\ predict_count (predicted h context n k w) = S (predict_count w)
  /\ stdout_count (predicted h context n k w) = stdout_count w.
Proof. repeat split; count_trace. Qed.

(** What [get_pipeline] adds to the trace, whatever its outcome. *)
Lemma get_pipeline_counts (E : Engine) (model_size : string) (w w' : World)
    (r : result (option Handle)) :
  get_pipeline E model_size w = (r, w') ->
  (load_count w <= load_count w' <= S (load_count w))%nat
  /\ predict_count w' = predict_count w
  /\ stdout_count w' = stdout_count w
  /\ (forall h, r = Ok (Some h) -> _pipeline w' = Some h
                /\ _model_name w' = Some (target_model model_size)).
Proof.
  intros Hcall.
  destruct (get_pipeline_cases E model_size w)
    as [(h & Hp & Hn & Heq) | [(Hmiss & Heq) | (Hmiss & Hok & Heq)]];
    rewrite Heq in Hcall; injection Hcall as <- <-.
  - repeat split; try lia; injection H as <-; assumption.
  - destruct (counts_loaded E (target_model model_size) w) as (-> & -> & ->).
    repeat split; try lia; injection H as <-; reflexivity.
  - destruct (counts_attempted E (target_model model_size) w) as (-> & -> & ->).
    repeat split; try lia; discriminate.
Qed.

(** A call of [forecast_prices] stops at the cache, or at the conversion
    of the prices, or goes on to exactly one prediction with the handle the
    cache returned. *)
Lemma forecast_prices_outcome (E : Engine) (prices : list Q) (n k : Z)
    (model_size : string) (w w' : World) (r : result record) :
  forecast_prices E prices n k model_size w = (r, w') ->
  (get_pipeline E model_size w = (Raise EngineError, w') /\ r = Raise EngineError)
  \/ (exists h,
        get_pipeline E model_size w = (Ok (Some h), w')
        /\ torch_tensor prices = Raise OverflowError
        /\ r = Raise OverflowError)
  \/ (exists h w1,
        get_pipeline E model_size w = (Ok (Some h), w1)
        /\ torch_tensor prices = Ok prices
        /\ w' = predicted h prices n k w1
        /\ r = match predict E (draws w1) h prices n k with
               | None => Raise EngineError
               | Some a => summarize a prices n
               end).
Proof.
  assert (Hafter : forall h w1,
            get_pipeline E model_size w = (Ok (Some h), w1) ->
            forecast_prices E prices n k model_size w = (r, w') ->
            (exists h,
               get_pipeline E model_size w = (Ok (Some h), w')
               /\ torch_tensor prices = Raise OverflowError
               /\ r = Raise OverflowError)
            \/ (exists h w1,
                  get_pipeline E model_size w = (Ok (Some h), w1)
                  /\ torch_tensor prices = Ok prices
                  /\ w' = predicted h prices n k w1
                  /\ r = match predict E (draws w1) h prices n k with
                         | None => Raise EngineError
                         | Some a => summarize a prices n
                         end)).
  { intros h w1 Hget. rewrite (forecast_prices_after _ _ _ _ _ _ _ _ Hget).
    destruct (torch_tensor_cases prices) as [Ht | Ht]; rewrite Ht;
      intros Hcall; injection Hcall as <- <-.
    - right. exists h, w1. repeat split. exact Hget.
    - left. exists h. repeat split. exact Hget. }
  destruct (get_pipeline_cases E model_size w)
    as [(h & Hp & Hn & Heq) | [(Hmiss & Heq) | (Hmiss & Hok & Heq)]].
  - intros Hcall. right. exact (Hafter _ _ Heq Hcall).
  - intros Hcall. right. exact (Hafter _ _ Heq Hcall).
  - unfold forecast_prices, bind. rewrite Heq. intros Hcall.
    injection Hcall as <- <-. left. split; reflexivity.
Qed.

(** Loads, predictions and the cache across one call. *)
Lemma forecast_prices_counts (E : Engine) (prices : list Q) (n k : Z)
    (model_size : string) (w w' : World) (r : result record) :
  forecast_prices E prices n k model_size w = (r, w') ->
  (load_count w <= load_count w' <= S (load_count w))%nat
  /\ (predict_count w <= predict_count w' <= S (predict_count w))%nat
  /\ stdout_count w' = stdout_count w
  /\ (forall base, r = Ok base ->
      predict_count w' = S (predict_count w)
      /\ exists h, _pipeline w' = Some h
                   /\ _model_name w' = Some (target_model model_size)).
Proof.
  intros Hcall.
  destruct (forecast_prices_outcome _ _ _ _ _ _ _ _ Hcall)
    as [[Hget ->] | [(h & Hget & _ & ->) | (h & w1 & Hget & _ & -> & ->)]];
    destruct (get_pipeline_counts _ _ _ _ _ Hget) as (Hl & Hp & Hs & Hh).
  - repeat split; try lia; discriminate.
  - repeat split; try lia; discriminate.
  - destruct (counts_predicted h prices n k w1) as (-> & -> & ->).
    repeat split; try lia.
    destruct (Hh h eq_refl) as [Hcache Hname].
    exists h. split; assumption.
Qed.

(** X3. One call of [forecast_prices] asks the engine for at most one load
    and at most one prediction and prints nothing on standard output.  When
    it returns a record it has made exactly one prediction, the last effect
    of the trace, with the cached handle, the prices as context and the
    lengths it was given. *)
Theorem forecast_prices_effects (E : Engine) (prices : list Q) (n k : Z)
    (model_size : string) (w w' : World) (r : result record) :
  forecast_prices E prices n k model_size w = (r, w') ->
  (load_count w <= load_count w' <= S (load_count w))%nat
  /\ (predict_count w <= predict_count w' <= S (predict_count w))%nat
  /\ stdout_count w' = stdout_count w
  /\ (forall base, r = Ok base ->
      predict_count w' = S (predict_count w)
      /\ exists h before,
           _pipeline w' = Some h
           /\ _model_name w' = Some (target_model model_size)
           /\ trace w' = (before ++ [Predict h prices n k])%list).
Proof.
  intros Hcall.
  destruct (forecast_prices_outcome _ _ _ _ _ _ _ _ Hcall)
    as [[Hget ->] | [(h & Hget & _ & ->) | (h & w1 & Hget & _ & -> & ->)]];
    destruct (get_pipeline_counts _ _ _ _ _ Hget) as (Hl & Hp & Hs & Hh).
  - repeat split; try lia. discriminate. discriminate.
  - repeat split; try lia. discriminate. discriminate.
  - destruct (counts_predicted h prices n k w1) as (-> & -> & ->).
    repeat split; try lia.
    destruct (Hh h eq_refl) as [Hcache Hname].
    exists h, (trace w1). repeat split; assumption.
Qed.

Lemma forecast_prices_effects_witness :
  load_count example_world = 1%nat
  /\ predict_count example_world = 1%nat
  /\ stdout_count example_world = 0%nat
  /\ exists h before,
       _pipeline example_world = Some h
       /\ trace example_world = (before ++ [Predict h example_prices 3 20])%list.
Proof.
  destruct (forecast_prices_effects stub_engine example_prices 3 20 "small"
              initial_world example_world (Ok example_base) example_run)
    as (Hl & Hp & Hs & Hok).
  destruct (Hok example_base eq_refl) as (Hp1 & h & before & Hcache & _ & Htrace).
  split; [reflexivity |]. split; [exact Hp1 |]. split; [exact Hs |].
  exists h, before. split; assumption.
Defined.

Lemma summarize_empty_prices (a : ndarray) (n : Z) :
  summarize a [] n = Raise IndexError.
Proof. unfold summarize. destruct (is_empty (rows a)); reflexivity. Qed.

(** X4. [forecast_prices] never returns a record for an empty list of
    prices, whatever the engine and the state: it raises the engine's error
    or, once the prediction has been made, [IndexError]. *)
Theorem forecast_prices_empty_raises (E : Engine) (n k : Z) (model_size : string)
    (w : World) :
  exists e w',
    forecast_prices E [] n k model_size w = (Raise e, w')
    /\ (e = EngineError
        \/ (e = IndexError /\ predict_count w' = S (predict_count w))).
Proof.
  destruct (forecast_prices E [] n k model_size w) as [r w'] eqn:Hcall.
  destruct (forecast_prices_outcome _ _ _ _ _ _ _ _ Hcall)
    as [[Hget ->] | [(h & Hget & Ht & ->) | (h & w1 & Hget & _ & -> & ->)]].
  - eexists _, _. split; [reflexivity |]. left. reflexivity.
  - rewrite torch_tensor_empty in Ht. discriminate.
  - destruct (get_pipeline_counts _ _ _ _ _ Hget) as (_ & Hp & _).
    destruct (predict E (draws w1) h [] n k) as [a |].
    + rewrite summarize_empty_prices.
      eexists _, _. split; [reflexivity |]. right. split; [reflexivity |].
      destruct (counts_predicted h [] n k w1) as (_ & -> & _). lia.
    + eexists _, _. split; [reflexivity |]. left. reflexivity.
Qed.

(** ** Forecasts and the cache *)

(** X5. After a forecast has returned, a further forecast whose size
    resolves to the same identifier does not load anything, whatever its
    prices and lengths and whether it succeeds or not.  It stops before the
    engine only when a price is too large for a float, and then it leaves
    the state as it was; otherwise it makes exactly one prediction, with
    the handle the first forecast left in the cache. *)
Theorem warm_cache_no_load (E : Engine) (prices prices' : list Q)
    (n k n' k' : Z) (size size' : string) (w w1 w2 : World) (base : record)
    (r : result record) :
  forecast_prices E prices n k size w = (Ok base, w1) ->
  target_model size' = target_model size ->
  forecast_prices E prices' n' k' size' w1 = (r, w2) ->
  load_count w2 = load_count w1
  /\ ((torch_tensor prices' = Raise OverflowError
       /\ r = Raise OverflowError /\ w2 = w1)
      \/ (torch_tensor prices' = Ok prices'
          /\ predict_count w2 = S (predict_count w1)
          /\ exists h, _pipeline w1 = Some h
                       /\ w2 = predicted h prices' n' k' w1)).
Proof.
  intros Hfirst Hsame Hsecond.
  destruct (forecast_prices_counts _ _ _ _ _ _ _ _ Hfirst) as (_ & _ & _ & Hok).
  destruct (Hok base eq_refl) as (_ & h & Hp & Hn).
  rewrite <- Hsame in Hn.
  pose proof (get_pipeline_hit E size' w1 h Hp Hn) as Hhit.
  rewrite (forecast_prices_after _ _ _ _ _ _ _ _ Hhit) in Hsecond.
  destruct (torch_tensor_cases prices') as [Ht | Ht]; rewrite Ht in Hsecond;
    injection Hsecond as <- <-.
  - destruct (counts_predicted h prices' n' k' w1) as (-> & -> & _).
    split; [reflexivity |]. right. split; [exact Ht |].
    split; [reflexivity |]. exists h. split; [exact Hp | reflexivity].
  - split; [reflexivity |]. left. repeat split. exact Ht.
Qed.

Lemma warm_cache_no_load_witness :
  exists r w2,
    forecast_prices stub_engine [7; 8] 5 20 "unknown-size" example_world = (r, w2)
    /\ load_count w2 = 1%nat /\ predict_count w2 = 2%nat.
Proof.
  exists (Ok (summary stub_samples 8 5)).
  exists (predicted (mkHandle 0 "amazon/chronos-bolt-small" "cpu") [7; 8] 5 20
            example_world).
  destruct (warm_cache_no_load stub_engine example_prices [7; 8] 3 20 5 20
              "small" "unknown-size" initial_world example_world
              (predicted (mkHandle 0 "amazon/chronos-bolt-small" "cpu") [7; 8] 5 20
                 example_world)
              example_base (Ok (summary stub_samples 8 5))
              example_run eq_refl eq_refl)
    as (Hl & [(Ht & _) | (_ & Hp & _)]).
  - discriminate Ht.
  - split; [reflexivity |]. split; [exact Hl | exact Hp].
Defined.

(** X6. The cache holds one handle only.  Asking for a first identifier,
    then for another, then for the first again loads at the second and at
    the third call: the handle returned last is a new object, not the one
    returned first, although both were built from the same identifier. *)
Theorem one_slot_cache (E : Engine) (size_a size_b : string)
    (w w1 w2 w3 : World) (r1 r2 r3 : result (option Handle)) :
  fresh_ids w ->
  target_model size_a <> target_model size_b ->
  from_pretrained_ok E (target_model size_a) (torch_device E) = true ->
  from_pretrained_ok E (target_model size_b) (torch_device E) = true ->
  get_pipeline E size_a w = (r1, w1) ->
  get_pipeline E size_b w1 = (r2, w2) ->
  get_pipeline E size_a w2 = (r3, w3) ->
  load_count w3 = S (S (load_count w1))
  /\ exists h1 h3,
       r1 = Ok (Some h1) /\ r3 = Ok (Some h3)
       /\ handle_model h3 = target_model size_a
       /\ (handle_id h1 < handle_id h3)%nat.
Proof.
  intros Hfresh Hdiff Hok_a Hok_b Hcall1 Hcall2 Hcall3.
  destruct (get_pipeline_spec E size_a w Hfresh Hok_a)
    as (h1 & w1' & Heq1 & Hp1 & Hn1 & Hfresh1 & _).
  rewrite Heq1 in Hcall1. injection Hcall1 as <- <-.
  assert (Hmiss2 : _pipeline w1' = None
                   \/ _model_name w1' <> Some (target_model size_b)).
  { right. rewrite Hn1. intros Heq. injection Heq as Heq. contradiction. }
  rewrite (get_pipeline_miss E size_b w1' Hmiss2 Hok_b) in Hcall2.
  injection Hcall2 as <- <-.
  assert (Hmiss3 : _pipeline (loaded E (target_model size_b) w1') = None
                   \/ _model_name (loaded E (target_model size_b) w1')
                      <> Some (target_model size_a)).
  { right. cbn. intros Heq. injection Heq as Heq. auto. }
  rewrite (get_pipeline_miss E size_a _ Hmiss3 Hok_a) in Hcall3.
  injection Hcall3 as <- <-. split.
  - rewrite !load_count_loaded. reflexivity.
  - eexists _, _. split; [reflexivity |]. split; [reflexivity |].
    split; [reflexivity |]. cbn.
    unfold fresh_ids in Hfresh1. rewrite Hp1 in Hfresh1. lia.
Qed.

Lemma one_slot_cache_witness :
  let w1 := loaded stub_engine "amazon/chronos-bolt-tiny" initial_world in
  let w2 := loaded stub_engine "amazon/chronos-t5-large" w1 in
  let w3 := loaded stub_engine "amazon/chronos-bolt-tiny" w2 in
  get_pipeline stub_engine "tiny" w2
  = (Ok (Some (mkHandle 2 "amazon/chronos-bolt-tiny" "cpu")), w3)
  /\ load_count w3 = 3%nat.
Proof.
  cbn zeta.
  destruct (one_slot_cache stub_engine "tiny" "large" initial_world
              (loaded stub_engine "amazon/chronos-bolt-tiny" initial_world)
              (loaded stub_engine "amazon/chronos-t5-large"
                 (loaded stub_engine "amazon/chronos-bolt-tiny" initial_world))
              (loaded stub_engine "amazon/chronos-bolt-tiny"
                 (loaded stub_engine "amazon/chronos-t5-large"
                    (loaded stub_engine "amazon/chronos-bolt-tiny" initial_world)))
              (Ok (Some (mkHandle 0 "amazon/chronos-bolt-tiny" "cpu")))
              (Ok (Some (mkHandle 1 "amazon/chronos-t5-large" "cpu")))
              (Ok (Some (mkHandle 2 "amazon/chronos-bolt-tiny" "cpu")))
              I ltac:(discriminate) eq_refl eq_refl eq_refl eq_refl eq_refl)
    as (Hl & _).
  split; [reflexivity | exact Hl].
Defined.

(** ** The event modes and the base forecast *)

Lemma field_with_field_other (r : record) (key key' : string) (v : pyval) :
  key' <> key -> field (with_field r key v) key' = field r key'.
Proof.
  intros Hne. unfold field, with_field.
  assert (Hkeys : forall k, atom_eqb k (AStr key) = true ->
                            atom_eqb k (AStr key') = false).
  { intros [| q | t]; cbn; try discriminate. intros Ht.
    apply String.eqb_eq in Ht. subst t. apply String.eqb_neq. auto. }
  induction r as [| [k x] r IH]; cbn.
  - destruct (String.eqb_spec key key'); [congruence | reflexivity].
  - destruct (atom_eqb k (AStr key)) eqn:Hk; cbn.
    + rewrite (Hkeys k Hk). reflexivity.
    + rewrite IH. reflexivity.
Qed.

(** Both event modes run the base forecast with 20 samples and then only
    compute: they end in the state the base forecast ends in. *)
Lemma with_events_outcome (E : Engine) (prices : list Q)
    (events : list EventRecord) (n : Z) (model_size : string) (w w' : World)
    (r : result record) :
  forecast_with_events E prices events n model_size w = (r, w') ->
  exists rb,
    forecast_prices E prices n 20 model_size w = (rb, w')
    /\ match rb with
       | Raise e => r = Raise e
       | Ok base =>
           r = (context <-? (if is_empty events then Ok PyNone
                             else event_statistics events) ;;
                Ok (with_field base "event_context" context))
       end.
Proof.
  unfold forecast_with_events, bind.
  destruct (forecast_prices E prices n 20 model_size w) as [[base | e] w1].
  - destruct (is_empty events).
    + unfold ret. intros Heq. injection Heq as <- <-. eexists. split; reflexivity.
    + unfold lift. destruct (event_statistics events); unfold ret; intros Heq;
        injection Heq as <- <-; eexists; split; reflexivity.
  - intros Heq. injection Heq as <- <-. eexists. split; reflexivity.
Qed.

Lemma post_event_outcome (E : Engine) (prices : list Q)
    (event : option EventRecord) (n : Z) (model_size : string) (w w' : World)
    (r : result record) :
  forecast_post_event E prices event n model_size w = (r, w') ->
  exists rb,
    forecast_prices E prices n 20 model_size w = (rb, w')
    /\ match rb with
       | Raise e => r = Raise e
       | Ok base =>
           r = match event with
               | None => Ok base
               | Some e =>
                   if is_empty e then Ok base
                   else analysis <-? event_analysis e ;;
                        Ok (with_field base "event_analysis" analysis)
               end
       end.
Proof.
  unfold forecast_post_event, bind.
  destruct (forecast_prices E prices n 20 model_size w) as [[base | e] w1].
  - destruct event as [e |].
    + destruct (is_empty e).
      * unfold ret. intros Heq. injection Heq as <- <-. eexists. split; reflexivity.
      * unfold lift. destruct (event_analysis e); unfold ret; intros Heq;
          injection Heq as <- <-; eexists; split; reflexivity.
    + unfold ret. intros Heq. injection Heq as <- <-. eexists. split; reflexivity.
  - intros Heq. injection Heq as <- <-. eexists. split; reflexivity.
Qed.

(** X7. A record returned by [forecast_with_events] is the record of the
    base forecast made with 20 samples from the same state, reached with
    the same effects: every key but [event_context] has the value the base
    forecast gave it, and [event_context] is always present. *)
Theorem with_events_keeps_base (E : Engine) (prices : list Q)
    (events : list EventRecord) (n : Z) (model_size : string) (w w' : World)
    (r : record) :
  forecast_with_events E prices events n model_size w = (Ok r, w') ->
  exists base,
    forecast_prices E prices n 20 model_size w = (Ok base, w')
    /\ (forall key, key <> "event_context" -> field r key = field base key)
    /\ field r "event_context" <> None.
Proof.
  intros Hcall.
  destruct (with_events_outcome _ _ _ _ _ _ _ _ Hcall) as ([base | e] & Hbase & Hr);
    [| discriminate].
  exists base. split; [exact Hbase |].
  destruct (if is_empty events then Ok PyNone else event_statistics events)
    as [context | e]; [| discriminate].
  cbn in Hr. injection Hr as ->. split.
  - intros key Hne. apply field_with_field_other, Hne.
  - rewrite field_with_field. discriminate.
Qed.

Lemma with_events_keeps_base_witness :
  exists r,
    forecast_with_events stub_engine example_prices example_events 3 "small"
      initial_world = (Ok r, example_world)
    /\ field r "median" = field example_base "median"
    /\ field r "last_price" = Some (PyNum 103).
Proof.
  assert (Hrun :
    forecast_with_events stub_engine example_prices example_events 3 "small"
      initial_world
    = (Ok (with_field example_base "event_context"
             match event_statistics example_events with
             | Ok context => context
             | Raise _ => PyNone
             end), example_world)) by reflexivity.
  destruct (with_events_keeps_base stub_engine example_prices example_events 3
              "small" initial_world example_world _ Hrun)
    as (base & Hbase & Hkeep & _).
  eexists. split; [exact Hrun |].
  assert (Heq : base = example_base).
  { rewrite example_run in Hbase. injection Hbase as <-. reflexivity. }
  subst base. split.
  - apply Hkeep. discriminate.
  - rewrite Hkeep by discriminate. reflexivity.
Defined.

(** X8. A record returned by [forecast_post_event] is the record of the
    base forecast made with 20 samples from the same state, reached with
    the same effects: every key but [event_analysis] has the value the base
    forecast gave it. *)
Theorem post_event_keeps_base (E : Engine) (prices : list Q)
    (event : option EventRecord) (n : Z) (model_size : string) (w w' : World)
    (r : record) :
  forecast_post_event E prices event n model_size w = (Ok r, w') ->
  exists base,
    forecast_prices E prices n 20 model_size w = (Ok base, w')
    /\ forall key, key <> "event_analysis" -> field r key = field base key.
Proof.
  intros Hcall.
  destruct (post_event_outcome _ _ _ _ _ _ _ _ Hcall) as ([base | e] & Hbase & Hr);
    [| discriminate].
  exists base. split; [exact Hbase |].
  destruct event as [e |].
  - destruct (is_empty e).
    + injection Hr as ->. reflexivity.
    + destruct (event_analysis e) as [analysis | x]; [| discriminate].
      cbn in Hr. injection Hr as ->.
      intros key Hne. apply field_with_field_other, Hne.
  - injection Hr as ->. reflexivity.
Qed.

Lemma post_event_keeps_base_witness :
  exists r,
    forecast_post_event stub_engine example_prices
      (Some [("strength", ANum 3)]) 3 "small" initial_world
    = (Ok r, example_world)
    /\ field r "samples" = field example_base "samples".
Proof.
  assert (Hrun :
    forecast_post_event stub_engine example_prices
      (Some [("strength", ANum 3)]) 3 "small" initial_world
    = (Ok (with_field example_base "event_analysis"
             (PyDict (analysis_of [("strength", ANum 3)] 3))), example_world))
    by reflexivity.
  destruct (post_event_keeps_base stub_engine example_prices
              (Some [("strength", ANum 3)]) 3 "small" initial_world example_world
              _ Hrun)
    as (base & Hbase & Hkeep).
  eexists. split; [exact Hrun |].
  assert (Heq : base = example_base).
  { rewrite example_run in Hbase. injection Hbase as <-. reflexivity. }
  subst base. apply Hkeep. discriminate.
Defined.

(** ** Exceptions *)

Lemma as_number_raises (a : atom) (e : exn) :
  as_number a = Raise e -> e = TypeError.
Proof. destruct a; cbn; intros H; congruence. Qed.

Lemma as_numbers_raises (l : list atom) (e : exn) :
  as_numbers l = Raise e -> e = TypeError.
Proof.
  induction l as [| a l IH]; cbn; [discriminate |].
  destruct (as_number a) as [q | x] eqn:Ha; cbn.
  - destruct (as_numbers l) as [qs | x]; cbn; [discriminate |].
    intros H. injection H as <-. apply IH. reflexivity.
  - intros H. injection H as <-. apply (as_number_raises a), Ha.
Qed.

Lemma np_mean_raises (l : list atom) (e : exn) :
  np_mean l = Raise e -> e = TypeError.
Proof.
  unfold np_mean. destruct (as_numbers l) as [qs | x] eqn:Hl; cbn;
    [discriminate |].
  intros H. injection H as <-. apply (as_numbers_raises l), Hl.
Qed.

Lemma count_if_raises (test : atom -> result bool) (l : list atom) (e : exn) :
  (forall a x, test a = Raise x -> x = TypeError) ->
  count_if test l = Raise e -> e = TypeError.
Proof.
  intros Htest. induction l as [| a l IH]; cbn; [discriminate |].
  destruct (test a) as [b | x] eqn:Ha; cbn.
  - destruct (count_if test l) as [c | x]; cbn; [discriminate |].
    intros H. injection H as <-. apply IH. reflexivity.
  - intros H. injection H as <-. apply (Htest a), Ha.
Qed.

Lemma sign_test_raises (a : atom) (x : exn) :
  (gt_zero a = Raise x -> x = TypeError) /\ (lt_zero a = Raise x -> x = TypeError).
Proof.
  unfold gt_zero, lt_zero. destruct a; cbn; split; intros H; congruence.
Qed.

Lemma event_statistics_raises (events : list EventRecord) (e : exn) :
  event_statistics events = Raise e -> e = TypeError.
Proof.
  rewrite event_statistics_eq.
  destruct (if is_empty (event_returns events) then Ok 0
            else np_mean (event_returns events)) as [avg_r | x] eqn:Hr; cbn.
  2: { intros H. injection H as <-.
       destruct (is_empty (event_returns events)); [discriminate |].
       apply (np_mean_raises _ _ Hr). }
  destruct (if is_empty (event_strengths events) then Ok 0
            else np_mean (event_strengths events)) as [avg_s | x] eqn:Hs; cbn.
  2: { intros H. injection H as <-.
       destruct (is_empty (event_strengths events)); [discriminate |].
       apply (np_mean_raises _ _ Hs). }
  destruct (count_if gt_zero (event_returns events)) as [p | x] eqn:Hp; cbn.
  2: { intros H. injection H as <-.
       apply (count_if_raises gt_zero (event_returns events)); [| exact Hp].
       intros a y. apply sign_test_raises. }
  destruct (count_if lt_zero (event_returns events)) as [m | x] eqn:Hm; cbn.
  2: { intros H. injection H as <-.
       apply (count_if_raises lt_zero (event_returns events)); [| exact Hm].
       intros a y. apply sign_test_raises. }
  discriminate.
Qed.

Lemma py_truediv_raises (x y : Q) (e : exn) :
  py_truediv x y = Raise e -> e = OverflowError.
Proof.
  unfold py_truediv. destruct (Qle_bool _ _); [| discriminate].
  intros H. injection H as <-. reflexivity.
Qed.

Lemma event_analysis_raises (event : EventRecord) (e : exn) :
  event_analysis event = Raise e -> e = TypeError \/ e = OverflowError.
Proof.
  unfold event_analysis, py_abs.
  destruct (as_number (event_get_or event "strength" (ANum 0))) as [q | x] eqn:Hq;
    cbn [and_then].
  - destruct (py_truediv (Qabs q) 10) as [ratio | x] eqn:Hdiv; cbn [and_then];
      [discriminate |].
    intros H. injection H as <-. right. apply (py_truediv_raises _ _ _ Hdiv).
  - intros H. injection H as <-. left. apply (as_number_raises _ _ Hq).
Qed.

Lemma last_item_raises (prices : list Q) (e : exn) :
  last_item prices = Raise e -> e = IndexError /\ prices = [].
Proof.
  unfold last_item. destruct (rev prices) as [| x l] eqn:Hrev; [| discriminate].
  intros H. injection H as <-. split; [reflexivity |].
  apply (f_equal (@rev Q)) in Hrev. rewrite rev_involutive in Hrev. exact Hrev.
Qed.

(** The summary raises [IndexError] only, for an array without rows or for
    an empty list of prices. *)
Lemma summarize_raises (a : ndarray) (prices : list Q) (n : Z) (e : exn) :
  summarize a prices n = Raise e ->
  e = IndexError /\ (rows a = [] \/ prices = []).
Proof.
  unfold summarize. destruct (rows a) as [| row rest]; cbn [is_empty].
  - intros H. injection H as <-. split; [reflexivity | left; reflexivity].
  - destruct (last_item prices) as [last_price | x] eqn:Hlast; cbn [and_then];
      [discriminate |].
    intros H. injection H as <-.
    destruct (last_item_raises _ _ Hlast) as [-> ->].
    split; [reflexivity | right; reflexivity].
Qed.

(** The exceptions a call can raise. *)
Lemma forecast_prices_raises (E : Engine) (prices : list Q) (n k : Z)
    (model_size : string) (w w' : World) (e : exn) :
  forecast_prices E prices n k model_size w = (Raise e, w') ->
  e = EngineError \/ e = OverflowError \/ e = IndexError.
Proof.
  intros Hcall.
  destruct (forecast_prices_outcome _ _ _ _ _ _ _ _ Hcall)
    as [[_ Heq] | [(h & _ & _ & Heq) | (h & w1 & Hget & _ & -> & Heq)]].
  - left. congruence.
  - right. left. congruence.
  - destruct (predict E (draws w1) h prices n k) as [a |]; [| left; congruence].
    symmetry in Heq. destruct (summarize_raises _ _ _ _ Heq) as [-> _].
    right. right. reflexivity.
Qed.

(** X9. The exceptions of [forecast_prices]: an error of the engine;
    [OverflowError], for a price too large for a float, before any
    prediction; or [IndexError], once the prediction has been made, and
    then either the list of prices is empty or the engine returned an array
    without sampled paths. *)
Theorem forecast_prices_exceptions (E : Engine) (prices : list Q) (n k : Z)
    (model_size : string) (w w' : World) (e : exn) :
  forecast_prices E prices n k model_size w = (Raise e, w') ->
  e = EngineError
  \/ (e = OverflowError
      /\ torch_tensor prices = Raise OverflowError
      /\ predict_count w' = predict_count w)
  \/ (e = IndexError
      /\ predict_count w' = S (predict_count w)
      /\ (prices = []
          \/ exists h d a, predict E d h prices n k = Some a /\ rows a = [])).
Proof.
  intros Hcall.
  destruct (forecast_prices_outcome _ _ _ _ _ _ _ _ Hcall)
    as [[_ Heq] | [(h & Hget & Ht & Heq) | (h & w1 & Hget & _ & -> & Heq)]].
  - left. congruence.
  - right. left. injection Heq as ->.
    destruct (get_pipeline_counts _ _ _ _ _ Hget) as (_ & Hp & _).
    repeat split; assumption.
  - destruct (predict E (draws w1) h prices n k) as [a |] eqn:Hpredict;
      [| left; congruence].
    symmetry in Heq. destruct (summarize_raises _ _ _ _ Heq) as [-> Hwhy].
    right. right. split; [reflexivity |].
    destruct (get_pipeline_counts _ _ _ _ _ Hget) as (_ & Hp & _).
    destruct (counts_predicted h prices n k w1) as (_ & -> & _).
    split; [lia |].
    destruct Hwhy as [Hrows | Hprices]; [right | left; exact Hprices].
    exists h, (draws w1), a. split; assumption.
Qed.

Lemma forecast_prices_exceptions_witness :
  let engine :=
    mkEngine false (fun _ _ => true) (fun _ _ _ _ _ => Some (mkArray [] 3)) in
  exists w',
    forecast_prices engine example_prices 3 20 "small" initial_world
    = (Raise IndexError, w')
    /\ predict_count w' = 1%nat.
Proof.
  cbn zeta.
  set (engine := mkEngine false (fun _ _ => true)
                          (fun _ _ _ _ _ => Some (mkArray [] 3))).
  assert (Hrun :
    forecast_prices engine example_prices 3 20 "small" initial_world
    = (Raise IndexError,
       predicted (mkHandle 0 "amazon/chronos-bolt-small" "cpu") example_prices 3 20
         (loaded engine "amazon/chronos-bolt-small" initial_world)))
    by reflexivity.
  eexists. split; [exact Hrun |].
  destruct (forecast_prices_exceptions engine example_prices 3 20 "small"
              initial_world _ IndexError Hrun)
    as [Heq | [(Heq & _) | (_ & Hcount & _)]].
  - discriminate Heq.
  - discriminate Heq.
  - exact Hcount.
Defined.

(** ** main *)

Lemma counts_printed (doc : pyval) (w : World) :
  load_count (printed doc w) = load_count w
  /\ predict_count (printed doc w) = predict_count w
  /\ stdout_count (printed doc w) = S (stdout_count w).
Proof. unfold printed. repeat split; count_trace. Qed.

(** [main] either rejects the input, or runs the mode and prints its
    record. *)
Lemma main_outcome (E : Engine) (args : Args) (data : Data) (w : World) :
  main E args data w
  = if is_empty (or_default (data_prices data) [])
    then (Raise (SystemExit 1),
          printed (PyDict [(AStr "error", PyStr "No prices provided")]) w)
    else match run_mode E args data w with
         | (Ok result, w1) => (Ok tt, printed (PyDict result) w1)
         | (Raise e, w1) => (Raise e, w1)
         end.
Proof.
  unfold main, run_mode. destruct (is_empty (or_default (data_prices data) [])).
  - reflexivity.
  - unfold bind. destruct (mode args);
      match goal with
      | |- context [match ?m w with _ => _ end] => destruct (m w) as [[result | e] w1]
      end; reflexivity.
Qed.

(** Every mode is the base forecast with 20 samples, followed by
    computation only. *)
Lemma run_mode_outcome (E : Engine) (args : Args) (data : Data) (w w1 : World)
    (r : result record) :
  run_mode E args data w = (r, w1) ->
  exists rb,
    forecast_prices E (or_default (data_prices data) []) (days args) 20
      (model args) w = (rb, w1)
    /\ match rb, r with
       | Raise e, _ => r = Raise e
       | Ok base, Ok result =>
           forall key, key <> "event_context" -> key <> "event_analysis" ->
                       field result key = field base key
       | Ok base, Raise e =>
           (e = TypeError \/ e = OverflowError) /\ mode args <> forecast
       end.
Proof.
  unfold run_mode. destruct (mode args) eqn:Hmode; intros Hcall.
  - exists r. split; [exact Hcall |]. destruct r; reflexivity.
  - destruct (with_events_outcome _ _ _ _ _ _ _ _ Hcall) as (rb & Hbase & Hr).
    exists rb. split; [exact Hbase |]. destruct rb as [base | e]; [| exact Hr].
    destruct (is_empty (or_default (data_events data) [])).
    + cbn in Hr. subst r. intros key Hne _. apply field_with_field_other, Hne.
    + destruct (event_statistics (or_default (data_events data) []))
        as [context | e] eqn:Hstat; cbn in Hr; subst r.
      * intros key Hne _. apply field_with_field_other, Hne.
      * split; [left; apply (event_statistics_raises _ _ Hstat) | discriminate].
  - destruct (post_event_outcome _ _ _ _ _ _ _ _ Hcall) as (rb & Hbase & Hr).
    exists rb. split; [exact Hbase |]. destruct rb as [base | e]; [| exact Hr].
    destruct (data_event data) as [ev |].
    + destruct (is_empty ev).
      * subst r. reflexivity.
      * destruct (event_analysis ev) as [analysis | e] eqn:Han; cbn in Hr; subst r.
        -- intros key _ Hne. apply field_with_field_other, Hne.
        -- split; [apply (event_analysis_raises _ _ Han) | discriminate].
    + subst r. reflexivity.
Qed.

(** X10. What a run of [main] prints.  It asks the engine for at most one
    load and one prediction.  If it returns, it has printed exactly one
    document, last, after a base forecast with 20 samples that succeeded,
    and the document carries the fields of that forecast.  If it exits with
    [SystemExit], the status is 1, the prices were missing or empty, the
    engine was not called and the one document printed is the error.  Any
    other exception leaves standard output untouched. *)
Theorem main_prints_one_document (E : Engine) (args : Args) (data : Data)
    (w w' : World) (r : result unit) :
  main E args data w = (r, w') ->
  (load_count w <= load_count w' <= S (load_count w))%nat
  /\ (predict_count w <= predict_count w' <= S (predict_count w))%nat
  /\ match r with
     | Ok _ =>
         exists base w1 result,
           forecast_prices E (or_default (data_prices data) []) (days args) 20
             (model args) w = (Ok base, w1)
           /\ w' = printed (PyDict result) w1
           /\ stdout_count w' = S (stdout_count w)
           /\ forall key, key <> "event_context" -> key <> "event_analysis" ->
                          field result key = field base key
     | Raise (SystemExit code) =>
         code = 1%Z
         /\ or_default (data_prices data) [] = []
         /\ w' = printed (PyDict [(AStr "error", PyStr "No prices provided")]) w
     | Raise _ =>
         or_default (data_prices data) [] <> []
         /\ stdout_count w' = stdout_count w
     end.
Proof.
  rewrite main_outcome.
  destruct (or_default (data_prices data) []) as [| p prices] eqn:Hprices;
    cbn [is_empty].
  - intros Heq. injection Heq as <- <-.
    destruct (counts_printed (PyDict [(AStr "error", PyStr "No prices provided")]) w)
      as (-> & -> & _).
    repeat split; lia.
  - destruct (run_mode E args data w) as [rm w1] eqn:Hmode.
    destruct (run_mode_outcome _ _ _ _ _ _ Hmode) as (rb & Hbase & Hr).
    rewrite Hprices in Hbase.
    destruct (forecast_prices_counts _ _ _ _ _ _ _ _ Hbase) as (Hl & Hp & Hs & _).
    destruct rm as [result | e]; intros Heq; injection Heq as <- <-.
    + destruct (counts_printed (PyDict result) w1) as (-> & -> & ->).
      split; [exact Hl |]. split; [exact Hp |].
      destruct rb as [base | e]; [| discriminate].
      exists base, w1, result. repeat split; try assumption. lia.
    + split; [exact Hl |]. split; [exact Hp |].
      assert (Hother : e <> SystemExit 1 /\ forall c, e = SystemExit c -> False).
      { destruct rb as [base | x].
        - destruct Hr as [[-> | ->] _]; split; try discriminate;
            intros c Hc; discriminate.
        - injection Hr as ->.
          destruct (forecast_prices_raises _ _ _ _ _ _ _ _ Hbase)
            as [-> | [-> | ->]]; split; try discriminate;
            intros c Hc; discriminate. }
      destruct e; try (split; [discriminate | exact Hs]).
      exfalso. apply (proj2 Hother code). reflexivity.
Qed.

Lemma main_prints_one_document_witness :
  exists w',
    main stub_engine (mkArgs post_event "small" 3)
      (mkData (Some example_prices) None (Some [("strength", ANum 3)]))
      initial_world
    = (Ok tt, w')
    /\ stdout_count w' = 1%nat /\ load_count w' = 1%nat
    /\ predict_count w' = 1%nat.
Proof.
  eexists.
  assert (Hrun :
    main stub_engine (mkArgs post_event "small" 3)
      (mkData (Some example_prices) None (Some [("strength", ANum 3)]))
      initial_world
    = (Ok tt,
       printed (PyDict (with_field example_base "event_analysis"
                          (PyDict (analysis_of [("strength", ANum 3)] 3))))
         example_world)) by reflexivity.
  split; [exact Hrun |].
  destruct (main_prints_one_document _ _ _ _ _ _ Hrun)
    as (Hl & Hp & base & w1 & result & _ & _ & Hs & _).
  repeat split.
Defined.

Lemma post_event_without_event (E : Engine) (prices : list Q)
    (event : option EventRecord) (n : Z) (model_size : string) (w : World) :
  event = None \/ event = Some [] ->
  forecast_post_event E prices event n model_size w
  = forecast_prices E prices n 20 model_size w.
Proof.
  intros Hevent. unfold forecast_post_event, bind.
  destruct (forecast_prices E prices n 20 model_size w) as [[base | e] w1];
    [| reflexivity].
  destruct Hevent as [-> | ->]; reflexivity.
Qed.

(** X11. Run in the mode [post_event] on an input without an event, or
    with an empty one, [main] does what it does in the mode [forecast]:
    same outcome, same document, same final state.  The events and the
    event of the input play no part in the mode [forecast]. *)
Theorem post_event_mode_without_event (E : Engine) (model_size : string)
    (n : Z) (data : Data) (w : World) :
  data_event data = None \/ data_event data = Some [] ->
  main E (mkArgs post_event model_size n) data w
  = main E (mkArgs forecast model_size n) data w
  /\ main E (mkArgs forecast model_size n) data w
     = main E (mkArgs forecast model_size n)
         (mkData (data_prices data) None None) w.
Proof.
  intros Hevent. split.
  - rewrite !main_outcome. unfold run_mode. cbn [mode days model].
    rewrite (post_event_without_event _ _ _ _ _ _ Hevent). reflexivity.
  - rewrite !main_outcome. reflexivity.
Qed.

Lemma post_event_mode_without_event_witness :
  main stub_engine (mkArgs post_event "base" 5)
    (mkData (Some example_prices) (Some example_events) (Some [])) initial_world
  = main stub_engine (mkArgs forecast "base" 5)
      (mkData (Some example_prices) None None) initial_world.
Proof.
  destruct (post_event_mode_without_event stub_engine "base" 5
              (mkData (Some example_prices) (Some example_events) (Some []))
              initial_world (or_intror eq_refl)) as [H1 H2].
  rewrite H1. exact H2.
Defined.

(** ** The histogram of classifications *)

Lemma atom_eqb_refl (a : atom) : atom_eqb a a = true.
Proof.
  destruct a; cbn; [reflexivity | apply Qeq_bool_refl | apply String.eqb_refl].
Qed.

Lemma atom_eqb_sym (a b : atom) : atom_eqb a b = atom_eqb b a.
Proof.
  destruct a, b; cbn; try reflexivity.
  - apply Qeq_bool_comm.
  - apply String.eqb_sym.
Qed.

Lemma atom_eqb_trans (a b c : atom) :
  atom_eqb a b = true -> atom_eqb b c = true -> atom_eqb a c = true.
Proof.
  destruct a, b, c; cbn; try discriminate; try reflexivity.
  - apply Qeq_bool_trans.
  - rewrite !String.eqb_eq. congruence.
Qed.

(** Equal keys are looked up alike. *)
Lemma atom_eqb_compat (a b c : atom) :
  atom_eqb a b = true -> atom_eqb a c = atom_eqb b c.
Proof.
  intros Hab. destruct (atom_eqb b c) eqn:Hbc.
  - apply (atom_eqb_trans a b c); assumption.
  - destruct (atom_eqb a c) eqn:Hac; [| reflexivity].
    rewrite <- Hbc. symmetry. apply (atom_eqb_trans b a c); [| exact Hac].
    rewrite atom_eqb_sym. exact Hab.
Qed.

Lemma lookup_compat {V : Type} (d : list (atom * V)) (k c : atom) :
  atom_eqb k c = true -> lookup atom_eqb d k = lookup atom_eqb d c.
Proof.
  intros Hkc. induction d as [| [k' v] d IH]; cbn; [reflexivity |].
  rewrite (atom_eqb_sym k' k), (atom_eqb_sym k' c), (atom_eqb_compat k c k' Hkc).
  rewrite IH. reflexivity.
Qed.

(** Reading a dict after [d[k] = v]. *)
Lemma lookup_store {V : Type} (d : list (atom * V)) (k c : atom) (v : V) :
  lookup atom_eqb (store atom_eqb d k v) c
  = if atom_eqb k c then Some v else lookup atom_eqb d c.
Proof.
  induction d as [| [k' v'] d IH]; cbn; [reflexivity |].
  destruct (atom_eqb k' k) eqn:Hk; cbn.
  - rewrite (atom_eqb_compat k' k c Hk). destruct (atom_eqb k c); reflexivity.
  - rewrite IH. destruct (atom_eqb k' c) eqn:Hc; [| reflexivity].
    destruct (atom_eqb k c) eqn:Hkc; [| reflexivity].
    rewrite (atom_eqb_sym k c) in Hkc.
    rewrite (atom_eqb_trans k' c k Hc Hkc) in Hk. discriminate.
Qed.

Lemma total_store (d : list (atom * Z)) (k : atom) :
  total (store atom_eqb d k (get_default atom_eqb d k 0 + 1)%Z)
  = (total d + 1)%Z.
Proof.
  unfold get_default. induction d as [| [k' v'] d IH]; cbn; [lia |].
  destruct (atom_eqb k' k); cbn; [lia |]. rewrite IH. lia.
Qed.

Lemma count_type_lookup (event_types : list (atom * Z)) (e : EventRecord)
    (c : atom) :
  lookup atom_eqb (count_type event_types e) c
  = bump (lookup atom_eqb event_types c)
         (if atom_eqb (classification_of e) c then 1 else 0).
Proof.
  unfold count_type, classification_of. cbn zeta. rewrite lookup_store.
  destruct (atom_eqb (event_get_or e "classification" (AStr "unknown")) c) eqn:Hc.
  - unfold get_default. rewrite (lookup_compat event_types _ c Hc).
    destruct (lookup atom_eqb event_types c); cbn; f_equal; lia.
  - destruct (lookup atom_eqb event_types c); cbn; [f_equal; lia | reflexivity].
Qed.

Lemma bump_bump (entry : option Z) (j k : Z) :
  (0 <= j)%Z -> (0 <= k)%Z -> bump (bump entry j) k = bump entry (j + k).
Proof.
  intros Hj Hk. destruct entry as [v |]; cbn.
  - f_equal. lia.
  - destruct (Z.eqb_spec j 0) as [-> | Hne]; cbn.
    + reflexivity.
    + destruct (Z.eqb_spec (j + k) 0); [lia | reflexivity].
Qed.

Lemma count_classified_cons (c : atom) (e : EventRecord)
    (events : list EventRecord) :
  count_classified c (e :: events)
  = ((if atom_eqb (classification_of e) c then 1 else 0)
     + count_classified c events)%Z.
Proof.
  unfold count_classified. cbn [filter].
  destruct (atom_eqb (classification_of e) c); cbn [List.length]; lia.
Qed.

Lemma count_classified_nonneg (c : atom) (events : list EventRecord) :
  (0 <= count_classified c events)%Z.
Proof. unfold count_classified. lia. Qed.

Lemma fold_count_type (events : list EventRecord) (event_types : list (atom * Z))
    (c : atom) :
  lookup atom_eqb (fold_left count_type events event_types) c
  = bump (lookup atom_eqb event_types c) (count_classified c events)
  /\ total (fold_left count_type events event_types)
     = (total event_types + Z.of_nat (List.length events))%Z.
Proof.
  revert event_types. induction events as [| e events IH]; intros event_types.
  - cbn. split; [| lia]. destruct (lookup atom_eqb event_types c); cbn;
      [f_equal; lia | reflexivity].
  - cbn [fold_left]. destruct (IH (count_type event_types e)) as [-> ->]. split.
    + rewrite count_type_lookup, count_classified_cons, bump_bump.
      * reflexivity.
      * destruct (atom_eqb (classification_of e) c); lia.
      * apply count_classified_nonneg.
    + unfold count_type at 1. cbn zeta. rewrite total_store.
      cbn [List.length]. lia.
Qed.

(** X12. The histogram [event_types] has an entry for exactly the
    classifications that occur among the events, an event without one being
    counted under "unknown"; the entry is the number of events of that
    classification, and the entries add up to the number of events. *)
Theorem event_types_histogram (events : list EventRecord) (c : atom) :
  lookup atom_eqb (count_types events) c
  = (if (count_classified c events =? 0)%Z then None
     else Some (count_classified c events))
  /\ total (count_types events) = Z.of_nat (List.length events)
  /\ (forall e, In e events -> absent e "classification" ->
      exists k, lookup atom_eqb (count_types events) (AStr "unknown") = Some k
                /\ (1 <= k)%Z).
Proof.
  unfold count_types.
  split; [| split].
  - destruct (fold_count_type events [] c) as [-> _]. reflexivity.
  - destruct (fold_count_type events [] c) as [_ ->]. reflexivity.
  - intros e Hin Habs.
    destruct (fold_count_type events [] (AStr "unknown")) as [-> _]. cbn.
    assert (Hpos : (1 <= count_classified (AStr "unknown") events)%Z).
    { unfold count_classified.
      assert (Hin' : In e (filter (fun e0 => atom_eqb (classification_of e0)
                                                (AStr "unknown")) events)).
      { apply filter_In. split; [exact Hin |].
        unfold classification_of, event_get_or, get_default.
        unfold absent in Habs. rewrite Habs. reflexivity. }
      destruct (filter _ events); [contradiction | cbn [List.length]; lia]. }
    destruct (Z.eqb_spec (count_classified (AStr "unknown") events) 0); [lia |].
    eexists. split; [reflexivity | exact Hpos].
Qed.

(** ** When the statistics raise *)

Lemma event_strengths_cons (e : EventRecord) (events : list EventRecord) :
  event_strengths (e :: events)
  = if truthy (event_get e "strength")
    then event_get_or e "strength" (ANum 0) :: event_strengths events
    else event_strengths events.
Proof.
  unfold event_strengths. cbn [filter].
  destruct (truthy (event_get e "strength")); reflexivity.
Qed.










(** X14. For an event whose strength is present but is not a number
    ([None], a string), [forecast_post_event] makes the base forecast, with
    its load and its prediction, and then raises [TypeError]: no record is
    returned. *)
Theorem post_event_type_error (E : Engine) (prices : list Q) (e : EventRecord)
    (a : atom) (n : Z) (model_size : string) (w w' : World) (base : record) :
  lookup String.eqb e "strength" = Some a ->
  is_number a = false ->
  forecast_prices E prices n 20 model_size w = (Ok base, w') ->
  forecast_post_event E prices (Some e) n model_size w = (Raise TypeError, w')
  /\ predict_count w' = S (predict_count w).
Proof.
  intros Hlook Ha Hbase. split.
  - unfold forecast_post_event, bind. rewrite Hbase.
    destruct e as [| p e]; [discriminate |]. cbn [is_empty].
    unfold lift, event_analysis, py_abs, event_get_or, get_default.
    rewrite Hlook. destruct a; try discriminate; reflexivity.
  - destruct (forecast_prices_counts _ _ _ _ _ _ _ _ Hbase) as (_ & _ & _ & Hok).
    apply (Hok base eq_refl).
Qed.

Lemma post_event_type_error_witness :
  forecast_post_event stub_engine example_prices
    (Some [("classification", AStr "surprising_positive"); ("strength", ANone)])
    3 "small" initial_world
  = (Raise TypeError, example_world)
  /\ predict_count example_world = 1%nat.
Proof.
  apply (post_event_type_error stub_engine example_prices
           [("classification", AStr "surprising_positive"); ("strength", ANone)]
           ANone 3 "small" initial_world example_world example_base
           eq_refl eq_refl example_run).
Defined.

(** ** Events that contribute nothing *)

(** X15. An event whose residual return and strength are both falsy (0,
    absent, [None], the empty string) changes nothing in the means, the
    bias and the two counters: the statistics with it and without it agree
    on these keys, or raise the same exception.  Only [num_events] tells,
    which counts it. *)
Theorem falsy_event_is_skipped (e : EventRecord) (events : list EventRecord) :
  truthy (event_get e "residual_return") = false ->
  truthy (event_get e "strength") = false ->
  match event_statistics (e :: events), event_statistics events with
  | Ok (PyDict with_e), Ok (PyDict without) =>
      (forall key, In key value_keys ->
                   lookup atom_eqb with_e (AStr key)
                   = lookup atom_eqb without (AStr key))
      /\ lookup atom_eqb with_e (AStr "num_events")
         = Some (PyInt (Z.of_nat (S (List.length events))))
      /\ lookup atom_eqb without (AStr "num_events")
         = Some (PyInt (Z.of_nat (List.length events)))
  | Raise x, Raise y => x = y
  | _, _ => False
  end.
Proof.
  intros Hr Hs.
  assert (Hreturns : event_returns (e :: events) = event_returns events)
    by (rewrite event_returns_cons, Hr; reflexivity).
  assert (Hstrengths : event_strengths (e :: events) = event_strengths events)
    by (rewrite event_strengths_cons, Hs; reflexivity).
  rewrite !event_statistics_eq, Hreturns, Hstrengths.
  destruct (if is_empty (event_returns events) then Ok 0
            else np_mean (event_returns events)) as [avg_r | x]; cbn [and_then];
    [| reflexivity].
  destruct (if is_empty (event_strengths events) then Ok 0
            else np_mean (event_strengths events)) as [avg_s | x]; cbn [and_then];
    [| reflexivity].
  destruct (count_if gt_zero (event_returns events)) as [p | x]; cbn [and_then];
    [| reflexivity].
  destruct (count_if lt_zero (event_returns events)) as [m | x]; cbn [and_then];
    [| reflexivity].
  unfold context_of. rewrite Hreturns. split; [| split; reflexivity].
  intros key Hkey. cbn in Hkey.
  repeat destruct Hkey as [<- | Hkey]; try reflexivity. contradiction.
Qed.

Lemma falsy_event_is_skipped_witness :
  truthy (event_get [("residual_return", ANum 0)] "residual_return") = false
  /\ match event_statistics ([("residual_return", ANum 0)] :: example_events),
           event_statistics example_events with
     | Ok (PyDict with_e), Ok (PyDict without) =>
         (forall key, In key value_keys ->
                      lookup atom_eqb with_e (AStr key)
                      = lookup atom_eqb without (AStr key))
         /\ lookup atom_eqb with_e (AStr "num_events")
            = Some (PyInt (Z.of_nat (S (List.length example_events))))
         /\ lookup atom_eqb without (AStr "num_events")
            = Some (PyInt (Z.of_nat (List.length example_events)))
     | Raise x, Raise y => x = y
     | _, _ => False
     end.
Proof.
  split; [reflexivity |].
  exact (falsy_event_is_skipped [("residual_return", ANum 0)] example_events
           eq_refl eq_refl).
Defined.

(** ** The bias at its ends *)







(** ** The bands and the samples *)

Lemma lerp_same (x t : Q) : exists p, np_lerp x x t = Finite p /\ p == x.
Proof.
  destruct (np_lerp_exact x x t) as (p & Hp & Heq).
  - assert (Hzero : x - x == 0) by ring.
    rewrite Hzero. reflexivity.
  - exists p. split; [exact Hp |]. rewrite Heq. unfold lerp. ring.
Qed.

(** The percentiles and the median of a single value are that value. *)
Lemma quantile_single (x q : Q) : exists p, quantile [x] q = Finite p /\ p == x.
Proof.
  unfold quantile. change (QSort.sort [x]) with [x]. cbn [List.length].
  change (inject_Z (Z.of_nat 1) - 1) with (1 - 1).
  assert (Hfloor : Qfloor ((1 - 1) * (q / 100)) = 0%Z).
  { assert (Hzero : (1 - 1) * (q / 100) == 0) by ring.
    rewrite (Qfloor_comp _ _ Hzero). reflexivity. }
  cbn zeta. rewrite Hfloor. cbn [Z.to_nat Nat.min Nat.sub nth].
  apply lerp_same.
Qed.

Lemma np_median_single (x : Q) : np_median [x] = Finite x.
Proof. reflexivity. Qed.

(** Each band is one of the five reductions of the array.  On a column
    with data whose values neither add nor subtract to an overflow, a
    reduction is a number between two values of the column; on a single
    value it is that value. *)
Lemma band_reduction (key : string) :
  In key band_keys ->
  exists f : list Q -> npfloat,
    (forall a last_price n,
       field (summary a last_price n) key = Some (tolist1 (along_axis0 f a)))
    /\ (forall c, c <> [] -> no_overflow c ->
          exists p lo hi,
            f c = Finite p /\ In lo c /\ In hi c /\ lo <= p /\ p <= hi)
    /\ (forall x, exists p, f [x] = Finite p /\ p == x).
Proof.
  assert (Hquantile : forall q, 0 <= q -> q <= 100 ->
            forall c, c <> [] -> no_overflow c ->
            exists p lo hi,
              quantile c q = Finite p /\ In lo c /\ In hi c /\ lo <= p /\ p <= hi).
  { intros q H0 H100 c Hne Hsafe.
    destruct (quantile_exact c q Hne Hsafe H0 H100) as (p & Hp & Heq).
    destruct (exact_percentile_in_range c q Hne H0 H100)
      as (lo & hi & Hlo & Hhi & H1 & H2).
    exists p, lo, hi.
    split; [exact Hp |]. split; [exact Hlo |]. split; [exact Hhi |].
    split; rewrite Heq; assumption. }
  cbn. intros Hkey.
  repeat destruct Hkey as [<- | Hkey]; try contradiction.
  - exists np_median. split; [reflexivity |]. split.
    + intros c Hne Hsafe.
      destruct (np_median_exact c Hne Hsafe) as (m & Hm & Heq).
      destruct (exact_percentile_in_range c 50 Hne)
        as (lo & hi & Hlo & Hhi & H1 & H2); try lra.
      exists m, lo, hi.
      split; [exact Hm |]. split; [exact Hlo |]. split; [exact Hhi |].
      split; rewrite Heq; assumption.
    + intros x. exists x. split; [reflexivity | reflexivity].
  - exists (fun c => quantile c 10). split; [reflexivity |].
    split; [apply Hquantile; lra | intros x; apply quantile_single].
  - exists (fun c => quantile c 90). split; [reflexivity |].
    split; [apply Hquantile; lra | intros x; apply quantile_single].
  - exists (fun c => quantile c 25). split; [reflexivity |].
    split; [apply Hquantile; lra | intros x; apply quantile_single].
  - exists (fun c => quantile c 75). split; [reflexivity |].
    split; [apply Hquantile; lra | intros x; apply quantile_single].
Qed.

Lemma along_axis0_nth (f : list Q -> npfloat) (a : ndarray) (i : nat)
    (v : pyval) :
  nth_error (map of_float (along_axis0 f a)) i = Some v ->
  (i < ncols a)%nat /\ v = of_float (f (column a i)).
Proof.
  intros Hnth. unfold along_axis0 in Hnth. rewrite map_map in Hnth.
  assert (Hi : (i < ncols a)%nat).
  { assert (Hsome : nth_error (map (fun j => of_float (f (column a j)))
                                   (seq 0 (ncols a))) i <> None) by congruence.
    apply nth_error_Some in Hsome. rewrite length_map, length_seq in Hsome.
    exact Hsome. }
  split; [exact Hi |].
  rewrite nth_error_map in Hnth.
  rewrite nth_error_nth' with (d := 0%nat) in Hnth
    by (rewrite length_seq; exact Hi).
  rewrite seq_nth in Hnth by exact Hi. cbn in Hnth. congruence.
Qed.

(** X18. In a record returned by [forecast_prices], if at no step a sum
    or a difference of two sampled values reaches the overflow threshold of
    float32, every entry of the median and of the four bands is a number
    lying between two of the sampled values of its step: no band leaves the
    range of the samples. *)
Theorem bands_within_samples (E : Engine) (prices : list Q) (n k : Z)
    (model_size : string) (w w' : World) (r : record) :
  forecast_prices E prices n k model_size w = (Ok r, w') ->
  exists a,
    field r "samples" = Some (tolist2 a)
    /\ (within_float32 a ->
        forall key i v,
          In key band_keys -> band r key i = Some v ->
          exists b lo hi,
            v = PyNum b
            /\ In lo (column a i) /\ In hi (column a i)
            /\ lo <= b /\ b <= hi).
Proof.
  intros Hcall.
  destruct (forecast_prices_inv _ _ _ _ _ _ _ _ Hcall)
    as (h & w1 & a & last_price & _ & _ & _ & _ & Hrows & ->).
  exists a. split; [reflexivity |].
  intros Hsafe key i v Hkey Hband.
  destruct (band_reduction key Hkey) as (f & Hfield & Hrange & _).
  unfold band in Hband. rewrite Hfield in Hband. unfold tolist1 in Hband.
  destruct (along_axis0_nth f a i v Hband) as [Hi ->].
  destruct (Hrange (column a i) (column_nonempty a i Hrows) (Hsafe i Hi))
    as (p & lo & hi & -> & Hlo & Hhi & H1 & H2).
  exists p, lo, hi. split; [reflexivity |].
  split; [exact Hlo |]. split; [exact Hhi |]. split; assumption.
Qed.

Lemma bands_within_samples_witness :
  exists a v b lo hi,
    field example_base "samples" = Some (tolist2 a)
    /\ band example_base "high_90" 1 = Some v
    /\ v = PyNum b
    /\ In lo (column a 1) /\ In hi (column a 1) /\ lo <= b /\ b <= hi.
Proof.
  destruct (bands_within_samples stub_engine example_prices 3 20 "small"
              initial_world example_world example_base example_run)
    as (a & Hfield & Hall).
  assert (Hsafe : within_float32 a).
  { apply small_within_float32. unfold small.
    cbn in Hfield. unfold tolist2 in Hfield. injection Hfield as Hrows.
    assert (Heq : rows a = rows stub_samples).
    { revert Hrows. generalize (rows a). intros l.
      change (rows stub_samples)
        with [[101; 104; 99]; [103; 102; 105]; [102; 108; 97]; [104; 100; 101]].
      intros Hrows. symmetry.
      repeat (destruct l as [| [| ? [| ? [| ? [| ? ?]]]] l]; try discriminate Hrows).
      cbn in Hrows. injection Hrows as <- <- <- <- <- <- <- <- <- <- <- <-.
      reflexivity. }
    rewrite Heq. reflexivity. }
  destruct (band example_base "high_90" 1) as [v |] eqn:Hband;
    [| vm_compute in Hband; discriminate].
  destruct (Hall Hsafe "high_90" 1%nat v) as (b & lo & hi & Hv & Hlo & Hhi & H1 & H2).
  - cbn. tauto.
  - exact Hband.
  - exists a, v, b, lo, hi. repeat split; assumption.
Defined.

Lemma map_PyNum_injective (l l' : list Q) :
  map PyNum l = map PyNum l' -> l = l'.
Proof.
  revert l'. induction l as [| x l IH]; intros [| y l'] H; try discriminate.
  - reflexivity.
  - cbn in H. injection H as Hx Hl. rewrite Hx, (IH l' Hl). reflexivity.
Qed.

(** X19. When the engine returns a single sampled path, every entry of the
    median and of the four bands is the value of that path at its step:
    with one sample there is no spread. *)
Theorem single_path_bands (E : Engine) (prices path : list Q) (n k : Z)
    (model_size : string) (w w' : World) (r : record) :
  forecast_prices E prices n k model_size w = (Ok r, w') ->
  field r "samples" = Some (PyList [PyList (map PyNum path)]) ->
  forall key i v,
    In key band_keys -> band r key i = Some v ->
    exists b, v = PyNum b /\ b == nth i path 0.
Proof.
  intros Hcall Hsamples key i v Hkey Hband.
  destruct (forecast_prices_inv _ _ _ _ _ _ _ _ Hcall)
    as (h & w1 & a & last_price & _ & _ & _ & _ & _ & ->).
  assert (Hrows : rows a = [path]).
  { cbn in Hsamples. unfold tolist2 in Hsamples. injection Hsamples as Hmap.
    destruct (rows a) as [| row [| row' rest]]; try discriminate.
    cbn in Hmap. injection Hmap as Hrow.
    rewrite (map_PyNum_injective _ _ Hrow). reflexivity. }
  destruct (band_reduction key Hkey) as (f & Hfield & _ & Hsingle).
  unfold band in Hband. rewrite Hfield in Hband. unfold tolist1 in Hband.
  destruct (along_axis0_nth f a i v Hband) as [Hi ->].
  assert (Hcol : column a i = [nth i path 0])
    by (unfold column; rewrite Hrows; reflexivity).
  rewrite Hcol.
  destruct (Hsingle (nth i path 0)) as (p & -> & Heq).
  exists p. split; [reflexivity | exact Heq].
Qed.

Lemma single_path_bands_witness :
  let engine :=
    mkEngine false (fun _ _ => true)
             (fun _ _ _ _ _ => Some (mkArray [[104; 106]] 2)) in
  exists r w' v b,
    forecast_prices engine example_prices 2 1 "small" initial_world = (Ok r, w')
    /\ band r "low_10" 1 = Some v
    /\ v = PyNum b /\ b == 106.
Proof.
  cbn zeta.
  set (engine := mkEngine false (fun _ _ => true)
                          (fun _ _ _ _ _ => Some (mkArray [[104; 106]] 2))).
  assert (Hrun :
    forecast_prices engine example_prices 2 1 "small" initial_world
    = (Ok (summary (mkArray [[104; 106]] 2) 103 2),
       predicted (mkHandle 0 "amazon/chronos-bolt-small" "cpu") example_prices 2 1
         (loaded engine "amazon/chronos-bolt-small" initial_world)))
    by reflexivity.
  destruct (band (summary (mkArray [[104; 106]] 2) 103 2) "low_10" 1)
    as [v |] eqn:Hband; [| vm_compute in Hband; discriminate].
  destruct (single_path_bands engine example_prices [104; 106] 2 1 "small"
              initial_world _ _ Hrun eq_refl "low_10" 1%nat v)
    as (b & Hv & Hb).
  - cbn. tauto.
  - exact Hband.
  - eexists _, _, v, b. split; [exact Hrun |]. repeat split; assumption.
Defined.

(** ** The shape of the record *)

Lemma last_item_app (prices : list Q) (p : Q) :
  last_item (prices ++ [p]) = Ok p.
Proof. unfold last_item. rewrite rev_app_distr. reflexivity. Qed.

(** X20. The record [forecast_prices] returns reports the newest price as
    [last_price] and the requested number of steps as [prediction_length],
    stores the array the engine predicted under [samples], and gives the
    median and the four bands one entry per column of that array, whatever
    the number of steps that was requested. *)
Theorem forecast_record_shape (E : Engine) (prices : list Q) (p : Q) (n k : Z)
    (model_size : string) (w w' : World) (r : record) :
  forecast_prices E (prices ++ [p]) n k model_size w = (Ok r, w') ->
  field r "last_price" = Some (PyNum p)
  /\ field r "prediction_length" = Some (PyInt n)
  /\ exists a h d,
       predict E d h (prices ++ [p]) n k = Some a
       /\ field r "samples" = Some (tolist2 a)
       /\ forall key, In key band_keys ->
            exists l, field r key = Some (PyList l)
                      /\ List.length l = ncols a.
Proof.
  intros Hcall.
  destruct (forecast_prices_inv _ _ _ _ _ _ _ _ Hcall)
    as (h & w1 & a & last_price & _ & Hpredict & Hlast & _ & _ & ->).
  rewrite last_item_app in Hlast. injection Hlast as <-.
  split; [reflexivity |]. split; [reflexivity |].
  exists a, h, (draws w1). split; [exact Hpredict |]. split; [reflexivity |].
  intros key Hkey.
  destruct (band_reduction key Hkey) as (f & Hfield & _).
  rewrite Hfield. unfold tolist1. eexists. split; [reflexivity |].
  unfold along_axis0. rewrite !length_map, length_seq. reflexivity.
Qed.

Lemma forecast_record_shape_witness :
  field example_base "last_price" = Some (PyNum 103)
  /\ field example_base "prediction_length" = Some (PyInt 3)
  /\ exists l, field example_base "median" = Some (PyList l)
               /\ List.length l = 3%nat.
Proof.
  destruct (forecast_record_shape stub_engine [100; 101; 99; 102] 103 3 20
              "small" initial_world example_world example_base example_run)
    as (Hlast & Hlen & a & h & d & Hpredict & _ & Hbands).
  split; [exact Hlast |]. split; [exact Hlen |].
  destruct (Hbands "median") as (l & Hl & Hlength); [cbn; tauto |].
  exists l. split; [exact Hl |].
  injection Hpredict as <-. exact Hlength.
Defined.

(** ** More on main and on the analysis *)

(** X21. Run in the mode [with_events] on prices that are not empty and an
    input whose events are missing or empty, [main] prints the record of
    the base forecast made with 20 samples, extended with the key
    [event_context] holding [None], and returns. *)
Theorem with_events_mode_without_events (E : Engine) (model_size : string)
    (n : Z) (data : Data) (w w1 : World) (base : record) :
  or_default (data_prices data) [] <> [] ->
  or_default (data_events data) [] = [] ->
  forecast_prices E (or_default (data_prices data) []) n 20 model_size w
  = (Ok base, w1) ->
  main E (mkArgs with_events model_size n) data w
  = (Ok tt, printed (PyDict (base ++ [(AStr "event_context", PyNone)])%list) w1)
  /\ main E (mkArgs forecast model_size n) data w
     = (Ok tt, printed (PyDict base) w1).
Proof.
  intros Hprices Hevents Hbase. rewrite !main_outcome. unfold run_mode.
  cbn [mode days model]. rewrite Hevents.
  destruct (or_default (data_prices data) []) as [| p prices]; [congruence |].
  cbn [is_empty]. rewrite (no_events_run _ _ _ _ _ _ _ Hbase), Hbase.
  split; reflexivity.
Qed.

Lemma with_events_mode_without_events_witness :
  main stub_engine (mkArgs with_events "small" 3)
    (mkData (Some example_prices) None None) initial_world
  = (Ok tt,
     printed (PyDict (example_base ++ [(AStr "event_context", PyNone)])%list)
       example_world).
Proof.
  assert (Hne : or_default (Some example_prices) [] <> ([] : list Q))
    by discriminate.
  apply (with_events_mode_without_events stub_engine "small" 3
           (mkData (Some example_prices) None None) initial_world example_world
           example_base Hne eq_refl example_run).
Defined.

(** X22. For a strength whose tenth is below the overflow threshold of a
    float, the confidence depends on the magnitude of the strength only, a
    negative strength counting like the positive one; it is 1 exactly when
    the magnitude is at least 10, and below that it is the tenth of the
    magnitude. *)
Theorem confidence_saturation (e e' : EventRecord) (strength : Q) :
  event_get_or e "strength" (ANum 0) = ANum strength ->
  event_get_or e' "strength" (ANum 0) = ANum (- strength) ->
  Qabs strength / 10 < float64_limit ->
  exists fields fields' confidence,
    event_analysis e = Ok (PyDict fields)
    /\ event_analysis e' = Ok (PyDict fields')
    /\ lookup atom_eqb fields (AStr "confidence") = Some (PyNum confidence)
    /\ lookup atom_eqb fields' (AStr "confidence") = Some (PyNum confidence)
    /\ (confidence == 1 <-> 10 <= Qabs strength)
    /\ (Qabs strength <= 10 -> confidence == Qabs strength / 10).
Proof.
  intros Hs Hs' Hrange.
  assert (Heq : Qabs (- strength) = Qabs strength).
  { destruct strength as [[| num | num] den]; reflexivity. }
  assert (Hrange' : Qabs (- strength) / 10 < float64_limit)
    by (rewrite Heq; exact Hrange).
  rewrite (event_analysis_numeric e strength Hs Hrange),
    (event_analysis_numeric e' (- strength) Hs' Hrange').
  eexists _, _, _. split; [reflexivity |]. split; [reflexivity |].
  split; [reflexivity |]. split.
  { unfold analysis_of. rewrite Heq. reflexivity. }
  assert (Hscale : Qabs strength == Qabs strength / 10 * 10)
    by (field; discriminate).
  revert Hscale. unfold py_min.
  destruct (Qle_bool (Qabs strength / 10) 1) eqn:Hle.
  - apply Qle_bool_iff in Hle. revert Hle.
    generalize (Qabs strength / 10), (Qabs strength). intros y x Hle Hscale.
    split; [split; intros H; lra | intros _; reflexivity].
  - assert (Hgt : 1 < Qabs strength / 10).
    { apply Qnot_le_lt. intros H. apply Qle_bool_iff in H. congruence. }
    revert Hgt. generalize (Qabs strength / 10), (Qabs strength).
    intros y x Hgt Hscale.
    split; [split; intros H; [lra | reflexivity] | intros H; lra].
Qed.

Lemma confidence_saturation_witness :
  exists fields fields' confidence,
    event_analysis [("strength", ANum 7)] = Ok (PyDict fields)
    /\ event_analysis [("strength", ANum (-7))] = Ok (PyDict fields')
    /\ lookup atom_eqb fields (AStr "confidence") = Some (PyNum confidence)
    /\ lookup atom_eqb fields' (AStr "confidence") = Some (PyNum confidence)
    /\ confidence == 7 # 10.
Proof.
  destruct (confidence_saturation [("strength", ANum 7)]
              [("strength", ANum (-7))] 7 eq_refl eq_refl eq_refl)
    as (fields & fields' & c & H1 & H2 & H3 & H4 & _ & Hlinear).
  exists fields, fields', c. repeat split; try assumption.
  rewrite Hlinear; [reflexivity |]. unfold Qle. cbn. lia.
Defined.

(** X23. Whatever the classification of the event, the expected
    continuation lies between -0.2 and 0.3, and it differs from 0 only for
    one of the four classifications of the table. *)
Theorem continuation_bounded (classification : atom) :
  let continuation :=
    get_default atom_eqb continuation_factors classification 0 in
  - (2 # 10) <= continuation /\ continuation <= 3 # 10
  /\ (~ continuation == 0 ->
      exists coefficient, In (classification, coefficient) continuation_factors
                          /\ continuation = coefficient).
Proof.
  cbn zeta. destruct classification as [| q | s].
  - cbn. repeat split; try (unfold Qle; cbn; lia). intros H. exfalso. apply H.
    reflexivity.
  - cbn. repeat split; try (unfold Qle; cbn; lia). intros H. exfalso. apply H.
    reflexivity.
  - unfold get_default, continuation_factors, lookup. rewrite !atom_eqb_str.
    repeat match goal with
           | |- context [String.eqb ?k s] =>
               destruct (String.eqb_spec k s) as [<- | _];
               [repeat split; try (unfold Qle; cbn; lia);
                intros _; eexists; split; [cbn; eauto 6 | reflexivity] |]
           end.
    repeat split; try (unfold Qle; cbn; lia). intros H. exfalso. apply H.
    reflexivity.
Qed.
